(** * webchanges: the worker that runs jobs ([webchanges/worker.py])

    A shallow embedding of [run_jobs] and of the functions nested in it
    ([job_runner], [get_virt_mem]), followed by the properties of the
    change classifier, of the retry policy and of the two-phase scheduler.

    Conventions of the embedding.
    - Python [int] is [Z]; [str] is [string]; [None]-able values are
      [option]; a Python [dict] whose order is observable (the history of
      snapshots, most recent first) is an association list.
    - A timestamp is a number of seconds; the worker only copies it and
      compares it with [0], so it is kept as a [Z].
    - The worker has three kinds of effects: it writes snapshots
      ([JobState.save]), it files job states in the report
      ([urlwatcher.report.*]) and it starts work on a thread pool.  They are
      recorded, in program order, as a list of [Event]s carried by a small
      state-and-exception monad [M].  Calls to [logger] are not recorded.
    - Collaborators that live outside [worker.py] (the job's own
      [with_defaults] and [JobState.process], [difflib.get_close_matches],
      [psutil], [os.cpu_count]) are fields of the record [Collaborators].

    The functions of the entry point ([webchanges/cli.py]) that look for,
    copy and create files are embedded in the module [Cli], over an
    interface to [pathlib] and a table of files, and their properties are
    in [CliFacts]. *)

From Stdlib Require Import ZArith List String Bool Lia.
Import ListNotations.
Local Open Scope Z_scope.

(** ** Data model *)

(** [jobs.JobBase], restricted to the attributes read by [worker.py].
    [is_browser] stands for the class attribute [__is_browser__]. *)
Record JobBase := mkJob {
  index_number : Z;
  max_tries : option Z;
  is_browser : bool;
  guid : string
}.

(** The exceptions a job state can carry: [jobs.NotModifiedError] and every
    other exception (a failed fetch), with its message. *)
Inductive JobException :=
| NotModifiedError
| OtherException (msg : string).

(** One stored observation, as the values of [history_dic_snapshots]. *)
Record Snapshot := mkSnapshot {
  data : string;
  timestamp : Z;
  tries : Z;
  etag : string
}.

(** [handler.JobState], restricted to the attributes read or assigned by
    [worker.py]. *)
Record JobState := mkJobState {
  job : JobBase;
  exception : option JobException;
  error_ignored : bool;
  js_tries : Z;
  old_data : string;
  old_timestamp : Z;
  old_etag : string;
  new_data : string;
  new_timestamp : Z;
  new_etag : string;
  history_dic_snapshots : list (string * Snapshot)
}.

(** [job_state.tries = t] *)
Definition set_tries (t : Z) (js : JobState) : JobState :=
  mkJobState (job js) (exception js) (error_ignored js) t
             (old_data js) (old_timestamp js) (old_etag js)
             (new_data js) (new_timestamp js) (new_etag js)
             (history_dic_snapshots js).

(** [job_state.old_data = d; job_state.old_timestamp = ts;
     job_state.old_etag = e] *)
Definition set_old (d : string) (ts : Z) (e : string) (js : JobState) : JobState :=
  mkJobState (job js) (exception js) (error_ignored js) (js_tries js)
             d ts e
             (new_data js) (new_timestamp js) (new_etag js)
             (history_dic_snapshots js).

(** The verbs of the report: [report.new], [report.unchanged],
    [report.changed], [report.error]. *)
Inductive Verb := VNew | VUnchanged | VChanged | VError.

(** The [psutil] global of the module: the package itself (here reduced to
    what [virtual_memory().available] answers, [None] when the call raises
    [psutil.Error]) or, when the import failed, the message of the
    [ImportError]. *)
Inductive Psutil :=
| PsutilMissing (msg : string)
| PsutilModule (available : option Z).

(** What the worker does to the outside world, in program order. *)
Inductive Event :=
| EvExecutor (workers : option Z)            (* ThreadPoolExecutor(max_workers=workers) *)
| EvNewRelease                               (* executor.submit(get_new_release_version) *)
| EvSubmit (j : JobBase)                     (* JobState(cache_storage, j).process submitted to the pool *)
| EvSave (use_old_data : bool) (js : JobState) (* job_state.save(use_old_data=...) *)
| EvReport (v : Verb) (js : JobState)        (* urlwatcher.report.<v>(job_state) *)
| EvVirtMem.                                 (* get_virt_mem() entered *)

(** The exceptions that leave [run_jobs]. *)
Inductive Error :=
| IndexError (idx num_jobs : Z)
| ImportError (msg : string)
| KeyError (key : string).

(** The mutable part of [urlwatcher] together with the trace of effects. *)
Record World := mkWorld {
  events : list Event;
  new_release_future : bool;         (* report.new_release_future is not None *)
  joblist : option (list Z)          (* urlwatch_config.joblist *)
}.

(** The part of [urlwatcher] that [run_jobs] only reads. *)
Record Urlwatch := mkUrlwatch {
  jobs : list JobBase;
  max_workers : option Z;            (* urlwatch_config.max_workers *)
  no_headless : bool                 (* urlwatch_config.no_headless *)
}.

(** Code used by the worker and defined elsewhere. *)
Record Collaborators := mkCollaborators {
  (* job.with_defaults(urlwatcher.config_storage.config) *)
  with_defaults : JobBase -> JobBase;
  (* JobState(cache_storage, job).process(headless=...), the state it returns *)
  process : bool -> JobBase -> JobState;
  (* difflib.get_close_matches(word, possibilities, n) *)
  get_close_matches : string -> list string -> nat -> list string;
  psutil : Psutil;
  (* os.cpu_count() *)
  cpu_count : option Z
}.

(** ** The monad of the worker *)

Inductive Result (A : Type) :=
| Returned (a : A)
| Raised (e : Error).
Arguments Returned {A} a.
Arguments Raised {A} e.

Definition M (A : Type) : Type := World -> World * Result A.

Definition ret {A} (a : A) : M A := fun w => (w, Returned a).

Definition bind {A B} (m : M A) (k : A -> M B) : M B :=
  fun w => match m w with
           | (w', Returned a) => k a w'
           | (w', Raised e) => (w', Raised e)
           end.

Definition raise {A} (e : Error) : M A := fun w => (w, Raised e).

Definition emit (ev : Event) : M unit :=
  fun w => (mkWorld (events w ++ [ev]) (new_release_future w) (joblist w), Returned tt).

Declare Scope worker_scope.
Delimit Scope worker_scope with worker.
Notation "x <- m ;; k" := (bind m (fun x => k))
  (at level 61, m at next level, right associativity) : worker_scope.
Notation "m ;; k" := (bind m (fun _ => k))
  (at level 61, right associativity) : worker_scope.
Local Open Scope worker_scope.

(** [for x in l: body x] *)
Fixpoint for_each {A} (l : list A) (body : A -> M unit) : M unit :=
  match l with
  | [] => ret tt
  | x :: l' => body x ;; for_each l' body
  end.


(** ** Python helpers *)

(** Truth value of an [int] or [None]. *)
Definition truthy (o : option Z) : bool :=
  match o with
  | None => false
  | Some z => negb (z =? 0)
  end.

(** Truth value of a [str]. *)
Definition nonempty (s : string) : bool :=
  match s with
  | EmptyString => false
  | String _ _ => true
  end.

(** [d.keys()] *)
Definition keys {V} (d : list (string * V)) : list string := map fst d.

(** [k in d.keys()] *)
Definition key_in {V} (k : string) (d : list (string * V)) : bool :=
  existsb (String.eqb k) (keys d).

(** [d[k]], [None] standing for [KeyError] *)
Fixpoint getitem {V} (d : list (string * V)) (k : string) : option V :=
  match d with
  | [] => None
  | (k', v) :: d' => if String.eqb k k' then Some v else getitem d' k
  end.

(** [len(d)] *)
Definition len {A} (l : list A) : Z := Z.of_nat (List.length l).

(** ** [job_runner] *)

(** [job_state.save(use_old_data=...)] *)
Definition save (use_old_data : bool) (js : JobState) : M unit :=
  emit (EvSave use_old_data js).

Definition report (v : Verb) (js : JobState) : M unit :=
  emit (EvReport v js).

(** Line 93: [0 if not job_state.job.max_tries else job_state.job.max_tries] *)
Definition effective_max_tries (j : JobBase) : Z :=
  if negb (truthy (max_tries j)) then 0
  else match max_tries j with Some m => m | None => 0 end.

(** Line 130: [job_state.old_data or job_state.old_timestamp != 0] *)
Definition has_snapshots (js : JobState) : bool :=
  nonempty (old_data js) || negb (old_timestamp js =? 0).

(** Lines 132-135 *)
Definition exact_match (js : JobState) : bool :=
  String.eqb (new_data js) (old_data js)
  || key_in (new_data js) (history_dic_snapshots js).

(** Lines 143-151: the search for a closest old snapshot to diff against. *)
Definition fuzzy_baseline (c : Collaborators) (js : JobState) : M JobState :=
  if 1 <? len (history_dic_snapshots js) then
    match get_close_matches c (new_data js) (keys (history_dic_snapshots js)) 1 with
    | [] => ret js
    | m :: _ =>
        match getitem (history_dic_snapshots js) m with
        | None => raise (KeyError m)
        | Some s => ret (set_old m (timestamp s) (etag s) js)
        end
    end
  else ret js.

(** Lines 93-160: the body of the loop over the processed job states.  It
    returns the job state as the loop leaves it. *)
Definition job_runner_body (c : Collaborators) (js : JobState) : M JobState :=
  let max_tries := effective_max_tries (job js) in
  match exception js with
  | Some e =>
      if error_ignored js then
        ret js
      else
        match e with
        | NotModifiedError =>
            js <- (if 0 <? js_tries js
                   then (let js := set_tries 0 js in save true js ;; ret js)
                   else ret js) ;;
            report VUnchanged js ;;
            ret js
        | OtherException _ =>
            if js_tries js <? max_tries then
              save true js ;;
              ret js
            else
              save true js ;;
              report VError js ;;
              ret js
        end
  | None =>
      if has_snapshots js then
        if exact_match js then
          js <- (if 0 <? js_tries js
                 then (let js := set_tries 0 js in save false js ;; ret js)
                 else ret js) ;;
          report VUnchanged js ;;
          ret js
        else
          js <- fuzzy_baseline c js ;;
          let js := set_tries 0 js in
          save false js ;;
          report VChanged js ;;
          ret js
      else
        let js := set_tries 0 js in
        save false js ;;
        report VNew js ;;
        ret js
  end.

(** Lines 81-160.  [executor.map] consumes its generator at once, so every
    job is submitted before the loop sees the first result; the results then
    come back in the order of [jobs]. *)
Definition job_runner (c : Collaborators) (u : Urlwatch)
    (jobs : list JobBase) (max_workers : option Z) : M unit :=
  emit (EvExecutor max_workers) ;;
  (fun w => if new_release_future w then (w, Returned tt)
            else (mkWorld (events w ++ [EvNewRelease]) true (joblist w), Returned tt)) ;;
  for_each jobs (fun j => emit (EvSubmit j)) ;;
  for_each jobs (fun j =>
    job_runner_body c (process c (negb (no_headless u)) j) ;; ret tt).

(** ** [get_virt_mem] *)

Definition newline : string := String (Ascii.ascii_of_nat 10) EmptyString.

(** The message of the [ImportError] of lines 166-169. *)
Definition psutil_error_message (msg : string) : string :=
  ("Error when loading package 'psutil'; cannot use 'use_browser: true'. Please install "
   ++ "dependencies with 'pip install webchanges[use_browser]'." ++ newline ++ msg)%string.

(** Lines 162-180. *)
Definition get_virt_mem (c : Collaborators) : M Z :=
  emit EvVirtMem ;;
  match psutil c with
  | PsutilMissing msg => raise (ImportError (psutil_error_message msg))
  | PsutilModule (Some virt_mem) => ret virt_mem
  | PsutilModule None => ret 0
  end.

(** ** [run_jobs] *)

(** Line 185: [-num_jobs <= idx <= -1 or 1 <= idx <= num_jobs] *)
Definition index_in_range (num_jobs idx : Z) : bool :=
  ((- num_jobs <=? idx) && (idx <=? -1)) || ((1 <=? idx) && (idx <=? num_jobs)).

(** Lines 184-186: the loop that validates the indices. *)
Fixpoint check_joblist (num_jobs : Z) (jl : list Z) : M unit :=
  match jl with
  | [] => ret tt
  | idx :: jl' =>
      if negb (index_in_range num_jobs idx)
      then raise (IndexError idx num_jobs)
      else check_joblist num_jobs jl'
  end.

(** Line 188: [jn if jn > 0 else len(urlwatcher.jobs) + jn + 1] *)
Definition normalise_index (num_jobs jn : Z) : Z :=
  if 0 <? jn then jn else num_jobs + jn + 1.

(** [x in l] for integers *)
Definition Z_in (x : Z) (l : list Z) : bool := existsb (Z.eqb x) l.

Definition get_joblist : M (option (list Z)) :=
  fun w => (w, Returned (joblist w)).

Definition set_joblist (jl : list Z) : M unit :=
  fun w => (mkWorld (events w) (new_release_future w) (Some jl), Returned tt).

(** Lines 182-201: the subset of jobs to run.  An absent or empty [joblist]
    is false in Python and selects every job. *)
Definition select_jobs (c : Collaborators) (u : Urlwatch) : M (list JobBase) :=
  cfg <- get_joblist ;;
  match cfg with
  | Some (idx :: rest) =>
      let jl := idx :: rest in
      check_joblist (len (jobs u)) jl ;;
      let jl' := map (normalise_index (len (jobs u))) jl in
      set_joblist jl' ;;
      ret (map (with_defaults c)
               (filter (fun job => Z_in (index_number job) jl') (jobs u)))
  | _ => ret (map (with_defaults c) (jobs u))
  end.

(** [os.cpu_count() or 1] *)
Definition cpu_count_or_1 (c : Collaborators) : Z :=
  if truthy (cpu_count c) then match cpu_count c with Some n => n | None => 1 end
  else 1.

(** Lines 224-225.  [int(virt_mem / 200e6)] divides in floating point and
    truncates towards zero; for [0 <= virt_mem < 2^53] that is the integer
    quotient by [200000000]. *)
Definition browser_max_workers (c : Collaborators) (virt_mem : Z) : Z :=
  let max_workers := Z.max (Z.quot virt_mem 200000000) 1 in
  Z.min max_workers (cpu_count_or_1 c).

Definition not_browser (j : JobBase) : bool := negb (is_browser j).

(** Lines 205-232: the two phases, on the jobs selected. *)
Definition run_phases (c : Collaborators) (u : Urlwatch) (jobs : list JobBase) : M unit :=
  let jobs_to_run := filter not_browser jobs in
  (match jobs_to_run with
   | [] => ret tt
   | _ :: _ => job_runner c u jobs_to_run (max_workers u)
   end) ;;
  let jobs_to_run := filter is_browser jobs in
  match jobs_to_run with
  | [] => ret tt
  | _ :: _ =>
      virt_mem <- get_virt_mem c ;;
      let workers :=
        if truthy (max_workers u)
        then match max_workers u with Some n => n | None => 0 end
        else browser_max_workers c virt_mem in
      job_runner c u jobs_to_run (Some workers)
  end.

(** Lines 34-232. *)
Definition run_jobs (c : Collaborators) (u : Urlwatch) : M unit :=
  jobs <- select_jobs c u ;;
  run_phases c u jobs.

(** ** Observations on traces *)

(** A world with an empty trace, no pending release check and no job
    filter. *)
Definition initial_world : World := mkWorld [] false None.

(** What the body of the loop does for one job state, and how it leaves it. *)
Definition body_trace (c : Collaborators) (js : JobState) : list Event :=
  events (fst (job_runner_body c js initial_world)).

Definition body_result (c : Collaborators) (js : JobState) : Result JobState :=
  snd (job_runner_body c js initial_world).

(** The verbs filed in the report, in order. *)
Fixpoint reported (evs : list Event) : list Verb :=
  match evs with
  | [] => []
  | EvReport v _ :: evs' => v :: reported evs'
  | _ :: evs' => reported evs'
  end.

(** The calls to [save], in order. *)
Fixpoint saves (evs : list Event) : list (bool * JobState) :=
  match evs with
  | [] => []
  | EvSave use_old_data js :: evs' => (use_old_data, js) :: saves evs'
  | _ :: evs' => saves evs'
  end.










(** Line 185, as a proposition. *)
Definition in_range (num_jobs idx : Z) : Prop :=
  - num_jobs <= idx <= -1 \/ 1 <= idx <= num_jobs.






(** ** The snapshot store, as far as the classifier depends on it *)

(** Modelled from the spec: the store's [load] ([storage.py] is not part of
    the sources at hand).  Section 4.1: it returns the most recent snapshot
    of the fingerprint, or a zero-value tuple (empty data, timestamp 0,
    tries 0, empty etag) if none exists.  The stored history of one
    fingerprint is a list of snapshots, most recent first. *)
Definition load (stored : list Snapshot) : Snapshot :=
  match stored with
  | [] => mkSnapshot EmptyString 0 0 EmptyString
  | s :: _ => s
  end.

(** Modelled from the spec: [JobState.load] ([handler.py] is not part of the
    sources at hand).  Section 3: the job state holds the most recent
    persisted snapshot as its old snapshot. *)
Definition holds_old_snapshot (stored : list Snapshot) (js : JobState) : Prop :=
  old_data js = data (load stored)
  /\ old_timestamp js = timestamp (load stored)
  /\ old_etag js = etag (load stored).

(** ** [insert_delay] *)

(** A job as [insert_delay] sees it: the job, its [url] when it is an
    instance of [UrlJobBase] ([None] when it is not) and its [_delay]
    attribute.  The delays drawn by [random.uniform(0.1, 1)] are values of a
    type [D] left open. *)
Record DelayJob (D : Type) := mkDelayJob {
  base : JobBase;
  url : option string;
  _delay : option D
}.
Arguments mkDelayJob {D} base url _delay.
Arguments base {D} d.
Arguments url {D} d.
Arguments _delay {D} d.

(** [job._delay = d] *)
Definition set_delay {D} (d : D) (j : DelayJob D) : DelayJob D :=
  mkDelayJob (base j) (url j) (Some d).

(** [netloc in previous_netlocs] *)
Definition netloc_in (nl : string) (previous_netlocs : list string) : bool :=
  existsb (String.eqb nl) previous_netlocs.

(** Lines 59-65: the loop, started with the set [previous_netlocs] and with
    [k] delays drawn so far.  [netloc url] is [urllib.parse.urlparse(url).netloc]
    and [uniform k] is what the call number [k] of [random.uniform(0.1, 1)]
    returns. *)
Fixpoint insert_delay_loop {D} (netloc : string -> string) (uniform : nat -> D)
    (previous_netlocs : list string) (k : nat) (jobs : list (DelayJob D))
    : list (DelayJob D) :=
  match jobs with
  | [] => []
  | job :: rest =>
      match url job with
      | Some u =>
          if netloc_in (netloc u) previous_netlocs
          then set_delay (uniform k) job
               :: insert_delay_loop netloc uniform previous_netlocs (S k) rest
          else job :: insert_delay_loop netloc uniform
                        (netloc u :: previous_netlocs) k rest
      | None => job :: insert_delay_loop netloc uniform previous_netlocs k rest
      end
  end.

(** Lines 40-66.  The jobs are changed in place and the list is returned. *)
Definition insert_delay {D} (netloc : string -> string) (uniform : nat -> D)
    (jobs : list (DelayJob D)) : list (DelayJob D) :=
  insert_delay_loop netloc uniform [] O jobs.

(** An earlier job of the list, among the first [i], is a URL job with the
    network location of [u]. *)
Definition netloc_seen_before {D} (netloc : string -> string)
    (jobs : list (DelayJob D)) (i : nat) (u : string) : Prop :=
  exists h jh uh,
    (h < i)%nat /\ nth_error jobs h = Some jh /\ url jh = Some uh
    /\ netloc uh = netloc u.

(** ** Concrete collaborators and states used in the examples *)

(** A stand-in for [difflib.get_close_matches]: it keeps, in order, at most
    [n] possibilities that start with the same character as [word]. *)
Definition same_initial (a b : string) : bool :=
  match a, b with
  | String x _, String y _ => Ascii.eqb x y
  | _, _ => false
  end.

Definition sample_close_matches (word : string) (possibilities : list string)
    (n : nat) : list string :=
  firstn n (filter (same_initial word) possibilities).

Definition sample_job : JobBase := mkJob 1 (Some 2) false "guid-1".
Definition sample_browser_job : JobBase := mkJob 2 None true "guid-2".

(** A first run of every job: nothing stored, the fetch answers ["X"]. *)
Definition sample_process (headless : bool) (j : JobBase) : JobState :=
  mkJobState j None false 0 "" 0 "" "X" 100 "" [].

Definition sample_collaborators (p : Psutil) : Collaborators :=
  mkCollaborators (fun j => j) sample_process sample_close_matches p (Some 4).

(** A failed fetch seen with [tries] consecutive failures, this one
    included. *)
Definition failing_state (tries : Z) : JobState :=
  mkJobState sample_job (Some (OtherException "timeout")) false tries
             "X" 100 "" "" 200 "" [("X"%string, mkSnapshot "X" 100 0 "")].

(** A fetch answered by 304 Not Modified. *)
Definition not_modified_state (tries : Z) : JobState :=
  mkJobState sample_job (Some NotModifiedError) false tries
             "X" 100 "e1" "" 200 "" [("X"%string, mkSnapshot "X" 100 tries "e1")].

(** A successful fetch of [new] over a history of two snapshots. *)
Definition two_snapshots : list (string * Snapshot) :=
  [("apple pie"%string, mkSnapshot "apple pie" 300 0 "e3");
   ("banana"%string, mkSnapshot "banana" 200 0 "e2")].

Definition fetched_state (new : string) (tries : Z) : JobState :=
  mkJobState sample_job None false tries
             "apple pie" 300 "e3" new 400 "e4" two_snapshots.

(** A successful fetch of [new] when the state was loaded from [stored]. *)
Definition state_loaded_from (stored : list Snapshot) (new : string) : JobState :=
  mkJobState sample_job None false (tries (load stored))
             (data (load stored)) (timestamp (load stored)) (etag (load stored))
             new 400 "e4" (map (fun s => (data s, s)) stored).

(** A stand-in for [urlparse(url).netloc]: what comes before the first
    slash. *)
Fixpoint sample_netloc (u : string) : string :=
  match u with
  | EmptyString => EmptyString
  | String ch rest =>
      if Ascii.eqb ch (Ascii.ascii_of_nat 47) then EmptyString else String ch (sample_netloc rest)
  end.

Definition sample_delay_jobs : list (DelayJob nat) :=
  [mkDelayJob sample_job (Some "example.com/a"%string) None;
   mkDelayJob sample_browser_job None None;
   mkDelayJob sample_job (Some "example.org/b"%string) None;
   mkDelayJob sample_job (Some "example.com/c"%string) None].

(** * The entry point ([webchanges/cli.py]) *)

Module Cli.

(** ** Paths and files *)

(** [pathlib], as far as [cli.py] uses it.  Two paths are equal in Coq when
    [==] holds for them in Python. *)
Record Pathlib := mkPathlib {
  Path : Type;
  Path_eq_dec : forall a b : Path, {a = b} + {a <> b};
  suffix : Path -> string;                      (* p.suffix *)
  with_suffix : Path -> string -> option Path;  (* p.with_suffix(ext), None for ValueError *)
  parent : Path -> Path;                        (* p.parent *)
  joinpath : Path -> Path -> Path;              (* p.joinpath(q), q a path *)
  joinpath_str : Path -> string -> Path;        (* p.joinpath(s), s a string *)
  dot : Path                                    (* PurePath('.') *)
}.

(** What the functions of [cli.py] do to the outside world, in program
    order.  Messages are kept by what they say, not as text. *)
Inductive Effect (P : Pathlib) :=
| Mkdir (p : Path P)                    (* p.mkdir(parents=True, exist_ok=True) *)
| Copyfile (src dst : Path P)           (* shutil.copyfile(src, dst) *)
| WarnCopied (src dst : Path P)         (* logger.warning("Copied ... file to ...") *)
| WarnCanDelete (src : Path P)          (* logger.warning("You can safely delete ...") *)
| WriteDefaultConfig (p : Path P)       (* YamlConfigStorage.write_default_config(p) *)
| WriteText (p : Path P) (text : string) (* p.write_text(text) *)
| PrintCreatedConfig (p : Path P)       (* print('Created default config file at ...') *)
| PrintEditConfigHint                   (* print('> Edit it with ... --edit-config') *)
| PrintCreatedJobs (p : Path P)         (* print('Created default jobs file at ...') *)
| PrintEditHint.                        (* print('> Edit it with ... --edit') *)
Arguments Mkdir {P} p.
Arguments Copyfile {P} src dst.
Arguments WarnCopied {P} src dst.
Arguments WarnCanDelete {P} src.
Arguments WriteDefaultConfig {P} p.
Arguments WriteText {P} p text.
Arguments PrintCreatedConfig {P} p.
Arguments PrintEditConfigHint {P}.
Arguments PrintCreatedJobs {P} p.
Arguments PrintEditHint {P}.

(** The regular files, with their content, and what was done so far.  The
    calls to the operating system are taken to succeed. *)
Record OS (P : Pathlib) := mkOS {
  files : Path P -> option string;
  log : list (Effect P)
}.
Arguments mkOS {P} files log.
Arguments files {P} o.
Arguments log {P} o.

(** [p.is_file()] *)
Definition is_file {P} (os : OS P) (p : Path P) : bool :=
  match files os p with
  | Some _ => true
  | None => false
  end.

(** The files once [p] holds [content]. *)
Definition write {P} (fs : Path P -> option string) (p : Path P) (content : string)
    : Path P -> option string :=
  fun q => if Path_eq_dec P p q then Some content else fs q.

Definition effect {P} (e : Effect P) (os : OS P) : OS P :=
  mkOS (files os) (log os ++ [e]).

(** [shutil.copyfile(src, dst)], for a [src] that is a file. *)
Definition copyfile {P} (src dst : Path P) (os : OS P) : OS P :=
  match files os src with
  | Some content => mkOS (write (files os) dst content) (log os ++ [Copyfile src dst])
  | None => os
  end.

(** ** [locate_storage_file] *)

(** Lines 108-112: the names to look for.  [None] when [with_suffix]
    raises [ValueError]. *)
Definition search_filenames {P} (filename : Path P) (ext : option string)
    : option (list (Path P)) :=
  match ext with
  | Some e =>
      if nonempty e && negb (String.eqb (suffix P filename) e)
      then match with_suffix P filename e with
           | Some with_ext => Some [filename; with_ext]
           | None => None
           end
      else Some [filename]
  | None => Some [filename]
  end.

(** Lines 114-123: the loop; [None] when it ends without a match. *)
Fixpoint search {P} (os : OS P) (default_path : Path P) (names : list (Path P))
    : option (Path P) :=
  match names with
  | [] => None
  | file :: rest =>
      if is_file os file then Some file
      else if Path_eq_dec P (parent P file) (dot P) then
        let new_file := joinpath P default_path file in
        if is_file os new_file then Some new_file
        else search os default_path rest
      else search os default_path rest
  end.

(** Lines 99-126.  [None] stands for the [ValueError] of [with_suffix]. *)
Definition locate_storage_file {P} (os : OS P) (filename default_path : Path P)
    (ext : option string) : option (Path P) :=
  match search_filenames filename ext with
  | None => None
  | Some names =>
      match search os default_path names with
      | Some found => Some found
      | None => Some filename
      end
  end.

(** ** [migrate_from_legacy] *)

(** Lines 69-73: one turn of the loop. *)
Definition migrate_file {P} (old_file new_file : Path P) (os : OS P) : OS P :=
  if is_file os old_file && negb (is_file os new_file) then
    let os := effect (Mkdir (parent P new_file)) os in
    let os := copyfile old_file new_file os in
    let os := effect (WarnCopied old_file new_file) os in
    effect (WarnCanDelete old_file) os
  else os.

(** Lines 66-73: the loop over the pairs of [zip]. *)
Fixpoint migrate_files {P} (pairs : list (Path P * Path P)) (os : OS P) : OS P :=
  match pairs with
  | [] => os
  | (old_file, new_file) :: rest => migrate_files rest (migrate_file old_file new_file os)
  end.

(** Lines 60-65: the legacy files, from [Path.home()] and from
    [platformdirs.user_cache_path(legacy_package)]. *)
Definition legacy_files {P} (home lg_cache_path : Path P) (legacy_package : string)
    : list (Path P) :=
  let lg_project_path := joinpath_str P home ("." ++ legacy_package) in
  [joinpath_str P lg_project_path (legacy_package ++ ".yaml");
   joinpath_str P lg_project_path "urls.yaml";
   joinpath_str P lg_project_path "hooks.py";
   joinpath_str P lg_cache_path "cache.db"]%string.

(** Lines 48-73. *)
Definition migrate_from_legacy {P} (home lg_cache_path : Path P)
    (legacy_package : string) (config_file jobs_file hooks_file cache_file : Path P)
    (os : OS P) : OS P :=
  migrate_files
    (combine (legacy_files home lg_cache_path legacy_package)
             [config_file; jobs_file; hooks_file; cache_file])
    os.

(** ** [first_run] *)

(** [config.CommandConfig], restricted to the attributes [first_run] uses. *)
Record CommandConfig (P : Pathlib) := mkCommandConfig {
  config : Path P;
  jobs : Path P;
  edit_config : bool;
  edit : bool
}.
Arguments mkCommandConfig {P} config jobs edit_config edit.
Arguments config {P} c.
Arguments jobs {P} c.
Arguments edit_config {P} c.
Arguments edit {P} c.

(** [print(...)] under [if cond] *)
Definition effect_if {P} (cond : bool) (e : Effect P) (os : OS P) : OS P :=
  if cond then effect e os else os.

(** The first line of a new jobs file (line 144), for the project name and
    the address of the documentation. *)
Definition jobs_header (project_name docs_url : string) : string :=
  ("# " ++ project_name ++ " jobs file. See " ++ docs_url ++ newline)%string.

(** Lines 134-141: the configuration file.  [write_default_config p fs] are
    the files once [YamlConfigStorage.write_default_config(p)] has run on the
    files [fs]. *)
Definition first_run_config {P}
    (write_default_config : Path P -> (Path P -> option string) -> Path P -> option string)
    (command_config : CommandConfig P) (os : OS P) : OS P :=
  if negb (is_file os (config command_config)) then
    let os := effect (Mkdir (parent P (config command_config))) os in
    let os := mkOS (write_default_config (config command_config) (files os))
                   (log os ++ [WriteDefaultConfig (config command_config)]) in
    let os := effect (PrintCreatedConfig (config command_config)) os in
    effect_if (negb (edit_config command_config)) PrintEditConfigHint os
  else os.

(** Lines 142-148: the jobs file. *)
Definition first_run_jobs {P} (project_name docs_url : string)
    (command_config : CommandConfig P) (os : OS P) : CommandConfig P * OS P :=
  if negb (is_file os (jobs command_config)) then
    let os := effect (Mkdir (parent P (jobs command_config))) os in
    let text := jobs_header project_name docs_url in
    let os := mkOS (write (files os) (jobs command_config) text)
                   (log os ++ [WriteText (jobs command_config) text]) in
    let command_config :=
      mkCommandConfig (config command_config) (jobs command_config)
                      (edit_config command_config) true in
    let os := effect (PrintCreatedJobs (jobs command_config)) os in
    (command_config, effect_if (negb (edit command_config)) PrintEditHint os)
  else (command_config, os).

(** Lines 129-148. *)
Definition first_run {P}
    (write_default_config : Path P -> (Path P -> option string) -> Path P -> option string)
    (project_name docs_url : string)
    (command_config : CommandConfig P) (os : OS P) : CommandConfig P * OS P :=
  first_run_jobs project_name docs_url command_config
    (first_run_config write_default_config command_config os).

(** ** [handle_unitialized_actions] *)

(** A value that is a [str] or a [bool], as [util.get_new_version_number]
    returns. *)
Inductive StrOrBool :=
| PyStr (s : string)
| PyBool (b : bool).

(** Truth value. *)
Definition is_true (v : StrOrBool) : bool :=
  match v with
  | PyStr s => nonempty s
  | PyBool b => b
  end.

(** [v == ''] *)
Definition is_empty_str (v : StrOrBool) : bool :=
  match v with
  | PyStr s => negb (nonempty s)
  | PyBool _ => false
  end.

(** [subprocess.CompletedProcess] *)
Record CompletedProcess := mkCompletedProcess {
  returncode : Z;
  stdout : string;
  stderr : string
}.

(** What these actions print and run. *)
Inductive Action :=
| PrintVersion                       (* print(f'{__project_name__} {__version__}', end='') *)
| PrintReleaseAvailable (v : StrOrBool) (* print('. Release version ... is available; ...') *)
| PrintLatestRelease                 (* print('. You are running the latest release.') *)
| PrintPyPIError                     (* print('. Error contacting PyPI ...') *)
| RunPlaywright (cmd : list string)  (* subprocess.run(cmd, ...) *)
| PrintStderr (s : string).          (* print(completed_process.stderr) *)

(** The exceptions that leave the functions of [cli.py]. *)
Inductive Exception :=
| SystemExit (code : Z)
| ImportError (msg : string)
| RuntimeError (msg : string)
| NotImplementedError (msg : string).

(** Lines 158-173. *)
Definition print_new_version (new_release : StrOrBool) : list Action * Z :=
  if is_true new_release then ([PrintVersion; PrintReleaseAvailable new_release], 0)
  else if is_empty_str new_release then ([PrintVersion; PrintLatestRelease], 0)
  else ([PrintVersion; PrintPyPIError], 1).

(** Lines 175-198.  [driver_executable] is [None] when the import of
    [playwright] fails; [run cmd] is what [subprocess.run] returns. *)
Definition playwright_install_chrome (driver_executable : option string)
    (run : list string -> CompletedProcess) : list Action * (Exception + Z) :=
  match driver_executable with
  | None =>
      ([], inl (ImportError
                  "Python package playwright is not installed; cannot install the Chrome browser"))
  | Some exe =>
      let cmd := [exe; "install"; "chrome"]%string in
      let completed_process := run cmd in
      if negb (returncode completed_process =? 0)
      then ([RunPlaywright cmd; PrintStderr (stderr completed_process)],
            inr (returncode completed_process))
      else ([RunPlaywright cmd], inr 0)
  end.

(** Lines 151-204.  [sys.exit(arg)] raises [SystemExit(arg)]. *)
Definition handle_unitialized_actions (check_new install_chrome : bool)
    (new_release : StrOrBool) (driver_executable : option string)
    (run : list string -> CompletedProcess) : list Action * (Exception + unit) :=
  if check_new then
    let (printed, code) := print_new_version new_release in
    (printed, inl (SystemExit code))
  else if install_chrome then
    match playwright_install_chrome driver_executable run with
    | (done, inl e) => (done, inl e)
    | (done, inr code) => (done, inl (SystemExit code))
    end
  else ([], inr tt).

(** ** [main]: the choice of the database *)

(** The classes of [storage.py] that [main] can instantiate. *)
Inductive CacheStorage :=
| CacheSQLite3Storage (cache : string) (max_snapshots : Z)
| CacheRedisStorage (cache : string)
| CacheDirStorage (cache : string)
| CacheMiniDBStorage (cache : string).

(** Line 286: [str(cache)] starts with ['redis://'] or ['rediss://']. *)
Definition redis_uri (cache : string) : bool :=
  existsb (fun p => String.prefix p cache) ["redis://"; "rediss://"]%string.

(** Lines 282-297 of [main], for [str(command_config.cache)]. *)
Definition main_cache_storage (database_engine cache : string) (max_snapshots : Z)
    : Exception + CacheStorage :=
  if String.eqb database_engine "sqlite3" then
    inr (CacheSQLite3Storage cache max_snapshots)
  else if redis_uri cache then
    inr (CacheRedisStorage cache)
  else if String.eqb database_engine "redis" then
    inl (RuntimeError
           "A redis URI (starting with 'redis://' or 'rediss://' needs to be specified with --cache")
  else if String.eqb database_engine "textfiles" then
    inr (CacheDirStorage cache)
  else if String.eqb database_engine "minidb" then
    inr (CacheMiniDBStorage cache)
  else
    inl (NotImplementedError
           ("Database engine " ++ database_engine ++ " not implemented")).

(** ** Concrete paths and files used in the examples *)

(** The part of [name] from its last dot on, if there is a dot. *)
Fixpoint from_last_dot (name : string) : option string :=
  match name with
  | EmptyString => None
  | String ch rest =>
      match from_last_dot rest with
      | Some tail => Some tail
      | None => if Ascii.eqb ch (Ascii.ascii_of_nat 46) then Some name else None
      end
  end.

(** The suffix of a file name: from the last dot on, when that dot is
    neither the first nor the last character. *)
Definition name_suffix (name : string) : string :=
  match name with
  | EmptyString => EmptyString
  | String _ rest =>
      match from_last_dot rest with
      | Some (String _ (String _ _) as tail) => tail
      | _ => EmptyString
      end
  end.

(** Relative paths as lists of components; the empty list is ['.']. *)
Definition sample_pathlib : Pathlib :=
  mkPathlib
    (list string)
    (list_eq_dec string_dec)
    (fun p => name_suffix (last p EmptyString))
    (fun p ext =>
       match last p EmptyString with
       | EmptyString => None
       | name =>
           let stem :=
             substring 0 (String.length name - String.length (name_suffix name)) name in
           Some (removelast p ++ [(stem ++ ext)%string])
       end)
    (fun p => removelast p)
    (fun p q => p ++ q)
    (fun p s => p ++ [s])
    [].

(** Files with the given paths and contents, and nothing done yet. *)
Definition sample_os (present : list (list string * string)) : OS sample_pathlib :=
  @mkOS sample_pathlib
    (fun p : list string =>
       match find (fun e => if list_eq_dec string_dec (fst e) p then true else false)
                  present with
       | Some e => Some (snd e)
       | None => None
       end)
    [].

End Cli.

(** * Properties *)

(** ** The monad and the loop body *)

Ltac unfold_body :=
  unfold job_runner_body, fuzzy_baseline, save, report, bind, emit, ret, raise.

Ltac body_cases c js :=
  destruct (exception js) as [[|?]|] eqn:?;
  destruct (error_ignored js) eqn:?;
  destruct (0 <? js_tries js) eqn:?;
  destruct (js_tries js <? effective_max_tries (job js)) eqn:?;
  destruct (has_snapshots js) eqn:?;
  destruct (exact_match js) eqn:?;
  destruct (1 <? len (history_dic_snapshots js)) eqn:?;
  destruct (get_close_matches c (new_data js) (keys (history_dic_snapshots js)) 1)
    as [|m ?] eqn:?;
  try destruct (getitem (history_dic_snapshots js) m) eqn:?.





(** ** Python helpers *)

Lemma nonempty_false (s : string) : nonempty s = false <-> s = EmptyString.
Proof. destruct s; cbn; split; congruence. Qed.

Lemma has_snapshots_false (js : JobState) :
  has_snapshots js = false <-> old_data js = EmptyString /\ old_timestamp js = 0.
Proof.
  unfold has_snapshots. rewrite orb_false_iff, negb_false_iff, Z.eqb_eq.
  now rewrite nonempty_false.
Qed.


Lemma key_in_spec {V} (k : string) (d : list (string * V)) :
  key_in k d = true <-> In k (keys d).
Proof.
  unfold key_in. rewrite existsb_exists. split.
  - intros [x [Hin Heq]]. apply String.eqb_eq in Heq. now subst.
  - intros Hin. exists k. split; [assumption | apply String.eqb_refl].
Qed.

Lemma exact_match_spec (js : JobState) :
  exact_match js = true <->
  new_data js = old_data js \/ In (new_data js) (keys (history_dic_snapshots js)).
Proof.
  unfold exact_match. now rewrite orb_true_iff, String.eqb_eq, key_in_spec.
Qed.



Lemma effective_max_tries_unset (j : JobBase) :
  max_tries j = None \/ max_tries j = Some 0 -> effective_max_tries j = 0.
Proof. unfold effective_max_tries. intros [H|H]; rewrite H; reflexivity. Qed.

Lemma effective_max_tries_set (j : JobBase) (m : Z) :
  max_tries j = Some m -> effective_max_tries j = m.
Proof.
  unfold effective_max_tries. intros H; rewrite H; cbn.
  destruct (Z.eqb_spec m 0); cbn; congruence.
Qed.


(** ** The retry policy *)

(** What the loop does on a failed fetch that is neither ignored nor a 304:
    it always re-saves the old data, and reports unless the counter is
    still below [max_tries]. *)
Lemma failed_fetch_trace (c : Collaborators) (js : JobState) (msg : string) :
  exception js = Some (OtherException msg) ->
  error_ignored js = false ->
  body_result c js = Returned js
  /\ body_trace c js =
       if js_tries js <? effective_max_tries (job js)
       then [EvSave true js]
       else [EvSave true js; EvReport VError js].
Proof.
  intros Hexc Hign. unfold body_trace, body_result. unfold_body.
  rewrite Hexc, Hign. destruct (js_tries js <? effective_max_tries (job js)); cbn; auto.
Qed.

(** C1.  A fetch failed with an exception that is neither ignored nor a
    [NotModifiedError], and the counter of the job state is the stored one
    plus one.  The error is reported exactly when [max_tries] is unset, is 0,
    or is at most that counter.  In every case the old data is saved again
    ([use_old_data=True]) with the incremented counter; when the error is not
    reported, that save is all that happens. *)
Theorem retry_policy_reports_iff_max_tries_reached
    (c : Collaborators) (js : JobState) (msg : string) (tries_stored : Z) :
  exception js = Some (OtherException msg) ->
  error_ignored js = false ->
  0 <= tries_stored ->
  js_tries js = tries_stored + 1 ->
  let tries_this_run := tries_stored + 1 in
  let reached :=
    max_tries (job js) = None \/
    exists m, max_tries (job js) = Some m /\ (m = 0 \/ tries_this_run >= m) in
  (reported (body_trace c js) = [VError] <-> reached)
  /\ (reached -> body_trace c js = [EvSave true js; EvReport VError js])
  /\ (~ reached -> body_trace c js = [EvSave true js])
  /\ saves (body_trace c js) = [(true, js)]
  /\ body_result c js = Returned js.
Proof.
  intros Hexc Hign Hstored Htries tries_this_run reached.
  destruct (failed_fetch_trace c js msg Hexc Hign) as [Hres Htrace].
  assert (Hdec : reached <-> (js_tries js <? effective_max_tries (job js)) = false).
  { unfold reached, tries_this_run. rewrite Z.ltb_ge, Htries. split.
    - intros [Hnone | [m [Hm Hle]]].
      + rewrite effective_max_tries_unset by auto. lia.
      + rewrite (effective_max_tries_set _ _ Hm). lia.
    - intros Hle. destruct (max_tries (job js)) as [m|] eqn:Hm; [|now left].
      right. exists m. split; [reflexivity|].
      rewrite (effective_max_tries_set _ _ Hm) in Hle. lia. }
  rewrite Htrace.
  destruct (js_tries js <? effective_max_tries (job js)); cbn.
  - assert (Hnot : ~ reached) by (intros H; apply Hdec in H; discriminate).
    split; [split; [discriminate | tauto] |].
    split; [tauto |]. split; [reflexivity |]. split; [reflexivity | assumption].
  - assert (Hyes : reached) by (now apply Hdec).
    split; [tauto |]. split; [reflexivity |]. split; [tauto |].
    split; [reflexivity | assumption].
Qed.

Lemma retry_policy_reports_iff_max_tries_reached_witness :
  reported (body_trace (sample_collaborators (PsutilModule None)) (failing_state 2)) = [VError]
  /\ body_trace (sample_collaborators (PsutilModule None)) (failing_state 1)
     = [EvSave true (failing_state 1)].
Proof.
  split.
  - apply (retry_policy_reports_iff_max_tries_reached
             (sample_collaborators (PsutilModule None)) (failing_state 2) "timeout" 1);
      [reflexivity | reflexivity | lia | reflexivity |].
    right. exists 2. split; [reflexivity | right; lia].
  - apply (retry_policy_reports_iff_max_tries_reached
             (sample_collaborators (PsutilModule None)) (failing_state 1) "timeout" 0);
      [reflexivity | reflexivity | lia | reflexivity |].
    intros [Hnone | [m [Hm [Hz | Hge]]]]; cbn in *; try discriminate;
      injection Hm as <-; lia.
Defined.

(** ** 304 Not Modified *)

Lemma not_modified_trace (c : Collaborators) (js : JobState) :
  exception js = Some NotModifiedError ->
  error_ignored js = false ->
  (0 < js_tries js ->
   body_trace c js = [EvSave true (set_tries 0 js); EvReport VUnchanged (set_tries 0 js)]
   /\ body_result c js = Returned (set_tries 0 js))
  /\ (js_tries js <= 0 ->
      body_trace c js = [EvReport VUnchanged js] /\ body_result c js = Returned js).
Proof.
  intros Hexc Hign. unfold body_trace, body_result. unfold_body.
  rewrite Hexc, Hign. split; intros Htries.
  - apply Z.ltb_lt in Htries. rewrite Htries. cbn. auto.
  - apply Z.ltb_ge in Htries. rewrite Htries. cbn. auto.
Qed.

(** C5, as the code has it.  A fetch raised [NotModifiedError] and the error
    was not flagged as ignored.  The job is reported as unchanged and its
    counter ends at 0.  The previous data is saved again
    ([use_old_data=True], with the counter at 0) only when the counter was
    above 0; when it was 0 already, nothing is saved. *)
Theorem not_modified_is_unchanged
    (c : Collaborators) (js : JobState) :
  exception js = Some NotModifiedError ->
  error_ignored js = false ->
  0 <= js_tries js ->
  reported (body_trace c js) = [VUnchanged]
  /\ (exists js', body_result c js = Returned js' /\ js_tries js' = 0)
  /\ (0 < js_tries js -> saves (body_trace c js) = [(true, set_tries 0 js)])
  /\ (js_tries js = 0 -> saves (body_trace c js) = []).
Proof.
  intros Hexc Hign Hpos.
  destruct (not_modified_trace c js Hexc Hign) as [Hgt Hle].
  destruct (Z.lt_ge_cases 0 (js_tries js)) as [H|H].
  - destruct (Hgt H) as [Ht Hr]. rewrite Ht, Hr. cbn.
    split; [reflexivity|]. split; [eauto|]. split; [reflexivity | lia].
  - destruct (Hle H) as [Ht Hr]. rewrite Ht, Hr. cbn.
    split; [reflexivity|]. split; [exists js; split; [reflexivity | lia]|].
    split; [lia | reflexivity].
Qed.

Lemma not_modified_is_unchanged_witness :
  reported (body_trace (sample_collaborators (PsutilModule None)) (not_modified_state 3))
  = [VUnchanged]
  /\ saves (body_trace (sample_collaborators (PsutilModule None)) (not_modified_state 3))
     = [(true, set_tries 0 (not_modified_state 3))].
Proof.
  destruct (not_modified_is_unchanged
              (sample_collaborators (PsutilModule None)) (not_modified_state 3))
    as [Hverb [_ [Hsave _]]]; [reflexivity | reflexivity | cbn; lia |].
  split; [exact Hverb | apply Hsave; cbn; lia].
Defined.

(** C5, as stated, fails: on a 304 received while the counter is 0 the job
    is reported as unchanged but no save is made, so nothing is persisted. *)
Lemma not_modified_with_zero_tries_persists_nothing :
  let c := sample_collaborators (PsutilModule None) in
  let js := not_modified_state 0 in
  exception js = Some NotModifiedError
  /\ error_ignored js = false
  /\ reported (body_trace c js) = [VUnchanged]
  /\ ~ (exists use_old_data js', In (EvSave use_old_data js') (body_trace c js)).
Proof.
  cbn. repeat split; try reflexivity.
  intros [b [js' [H | []]]]. discriminate.
Qed.

(** C9.  A job classified as unchanged, by a 304 or by an exact match,
    whose counter is 0: the loop only files the unchanged job state in the
    report; it makes no call to [save]. *)
Theorem unchanged_with_zero_tries_saves_nothing
    (c : Collaborators) (js : JobState) :
  js_tries js = 0 ->
  (exception js = Some NotModifiedError /\ error_ignored js = false)
  \/ (exception js = None
      /\ has_snapshots js = true
      /\ (new_data js = old_data js
          \/ In (new_data js) (keys (history_dic_snapshots js)))) ->
  body_trace c js = [EvReport VUnchanged js]
  /\ saves (body_trace c js) = []
  /\ body_result c js = Returned js.
Proof.
  intros Htries [[Hexc Hign] | [Hexc [Hsnap Hmatch]]].
  - destruct (not_modified_trace c js Hexc Hign) as [_ Hle].
    destruct Hle as [Ht Hr]; [lia|]. rewrite Ht, Hr. cbn. auto.
  - apply exact_match_spec in Hmatch.
    unfold body_trace, body_result. unfold_body.
    rewrite Hexc, Hsnap, Hmatch, Htries. cbn. auto.
Qed.

Lemma unchanged_with_zero_tries_saves_nothing_witness :
  saves (body_trace (sample_collaborators (PsutilModule None)) (fetched_state "banana" 0)) = []
  /\ saves (body_trace (sample_collaborators (PsutilModule None)) (not_modified_state 0)) = [].
Proof.
  split.
  - apply (unchanged_with_zero_tries_saves_nothing
             (sample_collaborators (PsutilModule None)) (fetched_state "banana" 0));
      [reflexivity |].
    right. split; [reflexivity |]. split; [reflexivity |].
    right. cbn. right. left. reflexivity.
  - apply (unchanged_with_zero_tries_saves_nothing
             (sample_collaborators (PsutilModule None)) (not_modified_state 0));
      [reflexivity |].
    left. split; reflexivity.
Defined.

(** ** The change classifier *)






Lemma new_trace (c : Collaborators) (js : JobState) :
  exception js = None ->
  has_snapshots js = false ->
  body_trace c js = [EvSave false (set_tries 0 js); EvReport VNew (set_tries 0 js)]
  /\ body_result c js = Returned (set_tries 0 js).
Proof.
  intros Hexc Hsnap. unfold body_trace, body_result. unfold_body.
  rewrite Hexc, Hsnap. cbn. auto.
Qed.

Lemma not_new_with_snapshots (c : Collaborators) (js : JobState) :
  exception js = None ->
  has_snapshots js = true ->
  reported (body_trace c js) <> [VNew].
Proof.
  intros Hexc Hsnap. unfold body_trace. unfold_body. rewrite Hexc, Hsnap.
  destruct (exact_match js).
  - destruct (0 <? js_tries js); cbn; discriminate.
  - destruct (1 <? len (history_dic_snapshots js)); [|cbn; discriminate].
    destruct (get_close_matches c _ _ _) as [|m rest]; [cbn; discriminate|].
    destruct (getitem _ m); cbn; discriminate.
Qed.

(** C4, as the code has it.  The fetch succeeded and the job state holds
    what the store loaded.  The job is classified as new exactly when the
    loaded data is empty and the loaded timestamp is 0; it then has its
    counter set to 0 and its new data saved.  That is the case when no
    snapshot is stored; a stored snapshot with timestamp 0 and data that is
    not empty counts as history and is never classified as new. *)
Theorem new_iff_nothing_loaded
    (c : Collaborators) (js : JobState) (stored : list Snapshot) :
  exception js = None ->
  holds_old_snapshot stored js ->
  let js0 := set_tries 0 js in
  (reported (body_trace c js) = [VNew]
   <-> data (load stored) = EmptyString /\ timestamp (load stored) = 0)
  /\ (reported (body_trace c js) = [VNew] ->
      body_trace c js = [EvSave false js0; EvReport VNew js0]
      /\ body_result c js = Returned js0)
  /\ (stored = [] -> reported (body_trace c js) = [VNew])
  /\ (forall s rest,
         stored = s :: rest -> timestamp s = 0 -> data s <> EmptyString ->
         reported (body_trace c js) <> [VNew]).
Proof.
  intros Hexc [Hdata [Hts _]] js0.
  assert (Hiff : reported (body_trace c js) = [VNew] <-> has_snapshots js = false).
  { destruct (has_snapshots js) eqn:Hsnap.
    - pose proof (not_new_with_snapshots c js Hexc Hsnap). split; [tauto | discriminate].
    - destruct (new_trace c js Hexc Hsnap) as [Ht _]. rewrite Ht. cbn. tauto. }
  split; [|split; [|split]].
  - rewrite Hiff, has_snapshots_false, Hdata, Hts. reflexivity.
  - intros Hnew. apply Hiff in Hnew. exact (new_trace c js Hexc Hnew).
  - intros ->. apply Hiff. apply has_snapshots_false. now rewrite Hdata, Hts.
  - intros s rest -> Hzero Hne Hnew. apply Hiff in Hnew.
    apply has_snapshots_false in Hnew. cbn in Hdata. destruct Hnew. congruence.
Qed.

Lemma new_iff_nothing_loaded_witness :
  reported (body_trace (sample_collaborators (PsutilModule None)) (state_loaded_from [] "X"))
  = [VNew]
  /\ reported (body_trace (sample_collaborators (PsutilModule None))
                 (state_loaded_from [mkSnapshot "X" 0 1 ""] "X"))
     <> [VNew].
Proof.
  split.
  - apply (new_iff_nothing_loaded
             (sample_collaborators (PsutilModule None)) (state_loaded_from [] "X") []);
      [reflexivity | repeat split | reflexivity].
  - destruct (new_iff_nothing_loaded
                (sample_collaborators (PsutilModule None))
                (state_loaded_from [mkSnapshot "X" 0 1 ""] "X")
                [mkSnapshot "X" 0 1 ""]) as [_ [_ [_ Hts]]];
      [reflexivity | repeat split |].
    apply (Hts (mkSnapshot "X" 0 1 "") []); [reflexivity | reflexivity | discriminate].
Defined.

(** C4, as stated, fails: a stored snapshot with empty data and timestamp 0
    exists, and the job is classified as new all the same. *)
Lemma stored_empty_snapshot_classified_new :
  let c := sample_collaborators (PsutilModule None) in
  let stored := [mkSnapshot "" 0 0 ""] in
  let js := state_loaded_from stored "X" in
  exception js = None
  /\ holds_old_snapshot stored js
  /\ stored <> []
  /\ reported (body_trace c js) = [VNew]
  /\ ~ (reported (body_trace c js) = [VNew] <-> stored = []).
Proof.
  cbn. split; [reflexivity|]. split; [repeat split|].
  split; [discriminate|]. split; [reflexivity|].
  intros [H _]. specialize (H eq_refl). discriminate.
Qed.

(** ** The selection of jobs *)

Lemma index_in_range_spec (num_jobs idx : Z) :
  index_in_range num_jobs idx = true <-> in_range num_jobs idx.
Proof.
  unfold index_in_range, in_range.
  rewrite orb_true_iff, !andb_true_iff, !Z.leb_le. tauto.
Qed.

(** The validation stops at the first index out of range, and touches
    nothing. *)
Lemma check_joblist_raises (num_jobs : Z) (jl : list Z) (w : World) :
  (exists idx, In idx jl /\ ~ in_range num_jobs idx) ->
  exists idx, In idx jl /\ ~ in_range num_jobs idx
              /\ check_joblist num_jobs jl w = (w, Raised (IndexError idx num_jobs)).
Proof.
  induction jl as [|x jl IH]; intros [idx [Hin Hbad]]; [destruct Hin|].
  cbn [check_joblist]. destruct (index_in_range num_jobs x) eqn:E; cbn.
  - apply index_in_range_spec in E. destruct Hin as [-> | Hin]; [tauto|].
    destruct IH as [i [Hi [Hb Hrun]]]; [eauto|].
    exists i. split; [now right|]. split; assumption.
  - exists x. split; [now left|]. split; [|reflexivity].
    intros H. apply index_in_range_spec in H. congruence.
Qed.

Lemma check_joblist_returns (num_jobs : Z) (jl : list Z) (w : World) :
  (forall idx, In idx jl -> in_range num_jobs idx) ->
  check_joblist num_jobs jl w = (w, Returned tt).
Proof.
  induction jl as [|x jl IH]; intros Hall; [reflexivity|].
  cbn [check_joblist].
  assert (E : index_in_range num_jobs x = true)
    by (apply index_in_range_spec, Hall; now left).
  rewrite E. cbn. apply IH. intros idx Hin. apply Hall. now right.
Qed.

Lemma Z_in_spec (x : Z) (l : list Z) : Z_in x l = true <-> In x l.
Proof.
  unfold Z_in. rewrite existsb_exists. split.
  - intros [y [Hin Heq]]. apply Z.eqb_eq in Heq. now subst.
  - intros Hin. exists x. split; [assumption | apply Z.eqb_refl].
Qed.

(** With a filter that passes the validation, the jobs selected. *)
Lemma select_jobs_filtered (c : Collaborators) (u : Urlwatch) (w : World)
    (idx : Z) (rest : list Z) :
  joblist w = Some (idx :: rest) ->
  (forall i, In i (idx :: rest) -> in_range (len (jobs u)) i) ->
  let jl' := map (normalise_index (len (jobs u))) (idx :: rest) in
  select_jobs c u w =
    (mkWorld (events w) (new_release_future w) (Some jl'),
     Returned (map (with_defaults c)
                   (filter (fun job => Z_in (index_number job) jl') (jobs u)))).
Proof.
  intros Hjl Hall jl'. unfold select_jobs, bind, get_joblist. rewrite Hjl.
  rewrite (check_joblist_returns _ _ _ Hall). reflexivity.
Qed.




(** ** The two phases *)



















Lemma check_joblist_world (num_jobs : Z) (jl : list Z) (w : World) :
  fst (check_joblist num_jobs jl w) = w.
Proof.
  induction jl as [|x jl IH]; [reflexivity|].
  cbn [check_joblist]. destruct (index_in_range num_jobs x); cbn; [exact IH | reflexivity].
Qed.








(** ** A missing [psutil] *)





(** * Further properties of the worker *)

(** ** The body of the loop, whatever the job state *)


(** X2.  A verb is filed in the report only in its own situation: new only
    after a successful fetch with no previous data and a zero timestamp;
    changed only after a successful fetch, with history, that matches no
    snapshot; unchanged only after a 304 that is not ignored or after a
    successful fetch that matches exactly; error only after another
    exception, not ignored, whose counter has reached [max_tries]. *)
Theorem reported_verb_tells_the_situation
    (c : Collaborators) (js : JobState) (v : Verb) :
  In v (reported (body_trace c js)) ->
  match v with
  | VNew => exception js = None /\ has_snapshots js = false
  | VChanged =>
      exception js = None /\ has_snapshots js = true /\ exact_match js = false
  | VUnchanged =>
      (exception js = Some NotModifiedError /\ error_ignored js = false)
      \/ (exception js = None /\ has_snapshots js = true /\ exact_match js = true)
  | VError =>
      exists msg, exception js = Some (OtherException msg)
                  /\ error_ignored js = false
                  /\ effective_max_tries (job js) <= js_tries js
  end.
Proof.
  unfold body_trace. unfold_body.
  body_cases c js; cbn; intros Hin;
    repeat match goal with
           | H : _ \/ _ |- _ => destruct H
           | H : False |- _ => destruct H
           end; subst; auto.
  all: eexists; split; [reflexivity|]; split; [reflexivity|];
    match goal with H : (_ <? _) = false |- _ => now apply Z.ltb_ge in H end.
Qed.

Lemma reported_verb_tells_the_situation_witness :
  exists msg, exception (failing_state 2) = Some (OtherException msg)
              /\ error_ignored (failing_state 2) = false
              /\ effective_max_tries (job (failing_state 2)) <= js_tries (failing_state 2).
Proof.
  apply (reported_verb_tells_the_situation
           (sample_collaborators (PsutilModule None)) (failing_state 2) VError).
  cbn. left. reflexivity.
Defined.

(** ** Bookkeeping of a run *)















(** ** The selection of jobs, continued *)

Lemma normalise_index_in_range (n jn : Z) :
  in_range n jn -> 1 <= normalise_index n jn <= n.
Proof.
  unfold in_range, normalise_index. intros H. destruct (Z.ltb_spec 0 jn); lia.
Qed.

Lemma normalise_index_positive (n i : Z) : 1 <= i -> normalise_index n i = i.
Proof. unfold normalise_index. intros H. destruct (Z.ltb_spec 0 i); lia. Qed.

(** X5.  With a filter whose indices are all in range, the jobs selected are
    the jobs of [urlwatcher.jobs] whose [index_number] is named by the
    filter, directly by a positive index or from the end by a negative one.
    They come in the order of [urlwatcher.jobs], each at most once however
    the filter is ordered or repeats itself, and the filter kept in the
    configuration is rewritten to indices between 1 and the number of jobs. *)
Theorem filter_selects_named_jobs_in_list_order
    (c : Collaborators) (u : Urlwatch) (w : World) (idx : Z) (rest : list Z) :
  joblist w = Some (idx :: rest) ->
  let n := len (jobs u) in
  (forall i, In i (idx :: rest) -> in_range n i) ->
  exists w1 keep jl',
    select_jobs c u w = (w1, Returned (map (with_defaults c) (filter keep (jobs u))))
    /\ (forall j, keep j = true <->
                  exists jn, In jn (idx :: rest)
                             /\ (0 < jn /\ index_number j = jn
                                 \/ jn < 0 /\ index_number j = n + jn + 1))
    /\ events w1 = events w
    /\ joblist w1 = Some jl'
    /\ List.length jl' = List.length (idx :: rest)
    /\ forall i, In i jl' -> 1 <= i <= n.
Proof.
  intros Hjl n Hall.
  rewrite (select_jobs_filtered c u w idx rest Hjl Hall). fold n.
  eexists. eexists. eexists. split; [reflexivity|]. cbn [events joblist].
  split; [|split; [reflexivity|split; [reflexivity|split]]].
  - intros j. rewrite Z_in_spec, in_map_iff. split.
    + intros [jn [Hnorm Hin]]. exists jn. split; [assumption|].
      specialize (Hall jn Hin). unfold in_range in Hall. unfold normalise_index in Hnorm.
      destruct (Z.ltb_spec 0 jn); lia.
    + intros [jn [Hin Hcase]]. exists jn. split; [|assumption].
      unfold normalise_index. destruct (Z.ltb_spec 0 jn); lia.
  - apply length_map.
  - intros i Hin. apply in_map_iff in Hin. destruct Hin as [jn [<- Hin]].
    apply normalise_index_in_range. now apply Hall.
Qed.

Lemma filter_selects_named_jobs_in_list_order_witness :
  let c := sample_collaborators (PsutilModule None) in
  let u := mkUrlwatch [sample_job; sample_browser_job] None false in
  let w := mkWorld [] false (Some [-1; 2; -1]) in
  exists w1 keep,
    select_jobs c u w = (w1, Returned (filter keep [sample_job; sample_browser_job]))
    /\ keep sample_job = false /\ keep sample_browser_job = true
    /\ joblist w1 = Some [2; 2; 2].
Proof.
  intros c u w.
  destruct (filter_selects_named_jobs_in_list_order c u w (-1) [2; -1] eq_refl)
    as [w1 [keep [jl' [Hsel [Hkeep [_ [Hjl _]]]]]]].
  - intros i [<- | [<- | [<- | []]]]; unfold in_range; cbn; lia.
  - exists w1, keep. rewrite map_id in Hsel. split; [exact Hsel|].
    split; [|split].
    + destruct (keep sample_job) eqn:E; [|reflexivity].
      apply Hkeep in E. destruct E as [jn [[<- | [<- | [<- | []]]] Hcase]];
        cbn in Hcase; lia.
    + apply Hkeep. exists 2. split; [right; left; reflexivity|]. left. cbn. lia.
    + unfold select_jobs, bind, get_joblist in Hsel. cbn in Hsel.
      injection Hsel as <- _. reflexivity.
Defined.

(** X6.  Selecting again after a successful selection changes nothing: the
    rewritten filter passes the validation, is left as it is and selects the
    same jobs, so a second [run_jobs] in the same process runs the jobs of
    the first. *)
Theorem selection_is_stable
    (c : Collaborators) (u : Urlwatch) (w w1 : World) (selected : list JobBase) :
  select_jobs c u w = (w1, Returned selected) ->
  select_jobs c u w1 = (w1, Returned selected).
Proof.
  intros Hsel.
  destruct (joblist w) as [[|idx rest]|] eqn:Hjl.
  - unfold select_jobs, bind, get_joblist in Hsel |- *. rewrite Hjl in Hsel.
    injection Hsel as <- <-. now rewrite Hjl.
  - pose proof (check_joblist_world (len (jobs u)) (idx :: rest) w) as Hw.
    assert (Hall : forall i, In i (idx :: rest) -> in_range (len (jobs u)) i).
    { intros i Hin. destruct (index_in_range (len (jobs u)) i) eqn:E;
        [now apply index_in_range_spec|].
      destruct (check_joblist_raises (len (jobs u)) (idx :: rest) w) as [i' [_ [_ Hr]]].
      - exists i. split; [assumption|]. intros H. apply index_in_range_spec in H. congruence.
      - unfold select_jobs, bind, get_joblist in Hsel. rewrite Hjl, Hr in Hsel.
        discriminate. }
    rewrite (select_jobs_filtered c u w idx rest Hjl Hall) in Hsel.
    set (jl' := map (normalise_index (len (jobs u))) (idx :: rest)) in *.
    pose proof (f_equal fst Hsel) as Hworld. pose proof (f_equal snd Hsel) as Hjobs.
    cbn [fst snd] in Hworld, Hjobs. subst w1.
    assert (Hsame : selected
                    = map (with_defaults c)
                        (filter (fun job => Z_in (index_number job) jl') (jobs u)))
      by congruence.
    subst selected. clear Hsel Hjobs.
    assert (Hpos : forall i, In i jl' -> 1 <= i <= len (jobs u)).
    { intros i Hin. apply in_map_iff in Hin. destruct Hin as [jn [<- Hin]].
      apply normalise_index_in_range. now apply Hall. }
    assert (Hfix : map (normalise_index (len (jobs u))) jl' = jl').
    { rewrite <- (map_id jl') at 2. apply map_ext_in. intros i Hin.
      apply normalise_index_positive. now apply Hpos. }
    set (w1 := mkWorld (events w) (new_release_future w) (Some jl')).
    assert (Hcons : exists i r, jl' = i :: r) by (unfold jl'; cbn [map]; eauto).
    destruct Hcons as [i [r Hcons]].
    assert (Hjl1 : joblist w1 = Some (i :: r)) by (cbn; now rewrite <- Hcons).
    rewrite (select_jobs_filtered c u w1 i r Hjl1).
    + rewrite <- Hcons, Hfix. reflexivity.
    + rewrite <- Hcons. intros k Hin. specialize (Hpos k Hin). unfold in_range. lia.
  - unfold select_jobs, bind, get_joblist in Hsel |- *. rewrite Hjl in Hsel.
    injection Hsel as <- <-. now rewrite Hjl.
Qed.

Lemma selection_is_stable_witness :
  let c := sample_collaborators (PsutilModule None) in
  let u := mkUrlwatch [sample_job; sample_browser_job] None false in
  let w1 := mkWorld [] false (Some [2]) in
  select_jobs c u w1 = (w1, Returned [sample_browser_job]).
Proof.
  intros c u w1.
  apply (selection_is_stable c u (mkWorld [] false (Some [-1])) w1 [sample_browser_job]).
  reflexivity.
Defined.

(** X7.  Index 0 names no job: a filter that holds 0 makes [run_jobs] raise
    [IndexError], and so does any filter that is not empty when there is no
    job at all; in both cases the world is left as it was. *)
Theorem index_zero_and_empty_job_list_raise
    (c : Collaborators) (u : Urlwatch) (w : World) (idx : Z) (rest : list Z) :
  joblist w = Some (idx :: rest) ->
  In 0 (idx :: rest) \/ jobs u = [] ->
  exists i, In i (idx :: rest)
            /\ run_jobs c u w = (w, Raised (IndexError i (len (jobs u)))).
Proof.
  intros Hjl Hcase.
  destruct (check_joblist_raises (len (jobs u)) (idx :: rest) w) as [i [Hin [_ Hrun]]].
  - destruct Hcase as [Hzero | Hnone].
    + exists 0. split; [assumption|]. unfold in_range. lia.
    + exists idx. split; [now left|]. rewrite Hnone. unfold in_range. cbn. lia.
  - exists i. split; [assumption|].
    unfold run_jobs, select_jobs, bind, get_joblist. now rewrite Hjl, Hrun.
Qed.

Lemma index_zero_and_empty_job_list_raise_witness :
  let c := sample_collaborators (PsutilModule None) in
  let u := mkUrlwatch [sample_job; sample_browser_job] None false in
  let w := mkWorld [] false (Some [1; 0]) in
  exists i, run_jobs c u w = (w, Raised (IndexError i 2)).
Proof.
  intros c u w.
  destruct (index_zero_and_empty_job_list_raise c u w 1 [0] eq_refl) as [i [_ Hrun]].
  - left. right. left. reflexivity.
  - exists i. exact Hrun.
Defined.

(** X8.  A filter that is absent or empty selects every job, in order, and
    is left as it is.  With no job to run, [run_jobs] returns at once: it
    creates no pool, submits no release check and does not look at
    [psutil], installed or not. *)
Theorem no_filter_selects_all_and_no_job_does_nothing
    (c : Collaborators) (u : Urlwatch) (w : World) :
  joblist w = None \/ joblist w = Some [] ->
  select_jobs c u w = (w, Returned (map (with_defaults c) (jobs u)))
  /\ (jobs u = [] -> run_jobs c u w = (w, Returned tt)).
Proof.
  intros Hjl.
  assert (Hsel : select_jobs c u w = (w, Returned (map (with_defaults c) (jobs u)))).
  { unfold select_jobs, bind, get_joblist. destruct Hjl as [-> | ->]; reflexivity. }
  split; [exact Hsel|].
  intros Hnone. unfold run_jobs, bind. rewrite Hsel, Hnone. reflexivity.
Qed.

Lemma no_filter_selects_all_and_no_job_does_nothing_witness :
  let c := sample_collaborators (PsutilMissing "No module named 'psutil'") in
  let w := mkWorld [] false (Some []) in
  run_jobs c (mkUrlwatch [] (Some 3) false) w = (w, Returned tt).
Proof.
  intros c w.
  apply (no_filter_selects_all_and_no_job_does_nothing c (mkUrlwatch [] (Some 3) false) w).
  - right. reflexivity.
  - reflexivity.
Defined.

(** ** The size of the browser pool *)

(** X9.  When [os.cpu_count()] is [None] or not negative, the size computed
    for the browser pool lies between 1 and [os.cpu_count() or 1]; it is 1
    when less than 400 MB are available (and so when [psutil.Error] made
    [get_virt_mem] answer 0); and it never shrinks when more memory is
    available. *)
Theorem browser_pool_size_bounds (c : Collaborators) (virt_mem more : Z) :
  match cpu_count c with Some n => 0 <= n | None => True end ->
  1 <= browser_max_workers c virt_mem <= cpu_count_or_1 c
  /\ (virt_mem < 400000000 -> browser_max_workers c virt_mem = 1)
  /\ (virt_mem <= more -> browser_max_workers c virt_mem <= browser_max_workers c more).
Proof.
  intros Hcpu.
  assert (Hone : 1 <= cpu_count_or_1 c).
  { unfold cpu_count_or_1, truthy. destruct (cpu_count c) as [n|]; [|lia].
    destruct (Z.eqb_spec n 0); cbn; lia. }
  unfold browser_max_workers. split; [lia|]. split.
  - intros Hsmall.
    assert (Z.quot virt_mem 200000000 <= 1).
    { destruct (Z.le_gt_cases 0 virt_mem) as [Hpos | Hneg].
      - rewrite Z.quot_div_nonneg by lia.
        apply Z.lt_succ_r. apply Z.div_lt_upper_bound; lia.
      - pose proof (Z.quot_opp_l (- virt_mem) 200000000 ltac:(lia)) as Hopp.
        rewrite Z.opp_involutive in Hopp. rewrite Hopp.
        pose proof (Z.quot_pos (- virt_mem) 200000000 ltac:(lia) ltac:(lia)). lia. }
    lia.
  - intros Hle.
    assert (Z.quot virt_mem 200000000 <= Z.quot more 200000000)
      by (apply Z.quot_le_mono; lia).
    lia.
Qed.

Lemma browser_pool_size_bounds_witness :
  1 <= browser_max_workers (sample_collaborators (PsutilModule None)) 0 <= 4
  /\ browser_max_workers (sample_collaborators (PsutilModule None)) 0 = 1.
Proof.
  destruct (browser_pool_size_bounds (sample_collaborators (PsutilModule None)) 0 0)
    as [Hbounds [Hsmall _]]; [cbn; lia|].
  split; [exact Hbounds | apply Hsmall; lia].
Defined.

(** * [insert_delay] *)

Section InsertDelay.

Context {D : Type}.
Variable netloc : string -> string.
Variable uniform : nat -> D.

Lemma netloc_in_spec (nl : string) (previous : list string) :
  netloc_in nl previous = true <-> In nl previous.
Proof.
  unfold netloc_in. rewrite existsb_exists. split.
  - intros [x [Hin Heq]]. apply String.eqb_eq in Heq. now subst.
  - intros Hin. exists nl. split; [assumption | apply String.eqb_refl].
Qed.

(** The loop touches nothing but [_delay]. *)
Lemma insert_delay_loop_frame (previous : list string) (k : nat)
    (jobs : list (DelayJob D)) :
  map (fun j => (base j, url j)) (insert_delay_loop netloc uniform previous k jobs)
  = map (fun j => (base j, url j)) jobs.
Proof.
  revert previous k. induction jobs as [|job rest IH]; intros previous k; [reflexivity|].
  cbn [insert_delay_loop]. destruct (url job) as [u|] eqn:Hu.
  - destruct (netloc_in (netloc u) previous); cbn [map]; rewrite IH; [|reflexivity].
    cbn. now rewrite Hu.
  - cbn [map]. now rewrite IH.
Qed.

(** The job at position [i]: delayed, with one of the draws [k .. k + i],
    when its network location is in the set the loop starts from or was seen
    among the jobs before it; left alone otherwise. *)
Lemma insert_delay_loop_nth (jobs : list (DelayJob D)) :
  forall (previous : list string) (k i : nat) (job : DelayJob D),
    nth_error jobs i = Some job ->
    let out := insert_delay_loop netloc uniform previous k jobs in
    (forall u, url job = Some u ->
               In (netloc u) previous \/ netloc_seen_before netloc jobs i u ->
               exists k', (k <= k' <= k + i)%nat
                          /\ nth_error out i = Some (set_delay (uniform k') job))
    /\ ((forall u, url job = Some u ->
                   ~ In (netloc u) previous /\ ~ netloc_seen_before netloc jobs i u) ->
        nth_error out i = Some job).
Proof.
  induction jobs as [|head rest IH]; intros previous k i job Hnth out;
    [destruct i; discriminate|].
  destruct i as [|i].
  - cbn in Hnth. injection Hnth as ->. subst out. cbn [insert_delay_loop]. split.
    + intros u Hu [Hin | [h [_ [_ [Hlt _]]]]]; [|lia].
      rewrite Hu. apply netloc_in_spec in Hin. rewrite Hin.
      exists k. split; [lia | reflexivity].
    + intros Hnot. destruct (url job) as [u|] eqn:Hu; [|reflexivity].
      destruct (Hnot u eq_refl) as [Hout _].
      destruct (netloc_in (netloc u) previous) eqn:E; [|reflexivity].
      apply netloc_in_spec in E. tauto.
  - cbn in Hnth. subst out. cbn [insert_delay_loop].
    assert (Hshift : forall u,
               netloc_seen_before netloc (head :: rest) (S i) u <->
               (exists uh, url head = Some uh /\ netloc uh = netloc u)
               \/ netloc_seen_before netloc rest i u).
    { intros u. unfold netloc_seen_before. split.
      - intros [h [jh [uh [Hlt [Hh [Huh Heq]]]]]]. destruct h as [|h].
        + cbn in Hh. injection Hh as ->. left. eauto.
        + right. exists h, jh, uh. cbn in Hh. repeat split; auto. lia.
      - intros [[uh [Huh Heq]] | [h [jh [uh [Hlt [Hh [Huh Heq]]]]]]].
        + exists O, head, uh. cbn. repeat split; auto. lia.
        + exists (S h), jh, uh. cbn. repeat split; auto. lia. }
    destruct (url head) as [uh|] eqn:Hhead.
    + destruct (netloc_in (netloc uh) previous) eqn:E.
      * apply netloc_in_spec in E.
        destruct (IH previous (S k) i job Hnth) as [Hyes Hno]. cbn [nth_error]. split.
        -- intros u Hu Hcase.
           destruct (Hyes u Hu) as [k' [Hk Hout]].
           { destruct Hcase as [Hin | Hseen]; [now left|].
             apply Hshift in Hseen. destruct Hseen as [[uh' [[= <-] Heq]] | Hseen];
               [left; congruence | now right]. }
           exists k'. split; [lia | exact Hout].
        -- intros Hnot. apply Hno. intros u Hu. destruct (Hnot u Hu) as [Hp Hs].
           split; [assumption|]. intros Hseen. apply Hs. apply Hshift. now right.
      * assert (Hnin : ~ In (netloc uh) previous).
        { intros Hin. apply netloc_in_spec in Hin. congruence. }
        destruct (IH (netloc uh :: previous) k i job Hnth) as [Hyes Hno].
        cbn [nth_error]. split.
        -- intros u Hu Hcase.
           destruct (Hyes u Hu) as [k' [Hk Hout]].
           { destruct Hcase as [Hin | Hseen]; [left; now right|].
             apply Hshift in Hseen. destruct Hseen as [[uh' [[= <-] Heq]] | Hseen];
               [left; left; assumption | now right]. }
           exists k'. split; [lia | exact Hout].
        -- intros Hnot. apply Hno. intros u Hu. destruct (Hnot u Hu) as [Hp Hs].
           split.
           ++ intros [Heq | Hin]; [|tauto]. apply Hs. apply Hshift. left. eauto.
           ++ intros Hseen. apply Hs. apply Hshift. now right.
    + destruct (IH previous k i job Hnth) as [Hyes Hno]. cbn [nth_error]. split.
      * intros u Hu Hcase.
        destruct (Hyes u Hu) as [k' [Hk Hout]].
        { destruct Hcase as [Hin | Hseen]; [now left|].
          apply Hshift in Hseen. destruct Hseen as [[uh' [Hx _]] | Hseen];
            [discriminate | now right]. }
        exists k'. split; [lia | exact Hout].
      * intros Hnot. apply Hno. intros u Hu. destruct (Hnot u Hu) as [Hp Hs].
        split; [assumption|]. intros Hseen. apply Hs. apply Hshift. now right.
Qed.

End InsertDelay.

(** X10.  [insert_delay] returns the jobs it was given, in the same order,
    with nothing changed but [_delay]; and it gives no delay to a job that is
    not a URL job. *)
Theorem insert_delay_changes_only_delays {D : Type}
    (netloc : string -> string) (uniform : nat -> D) (jobs : list (DelayJob D)) :
  map (fun j => (base j, url j)) (insert_delay netloc uniform jobs)
  = map (fun j => (base j, url j)) jobs
  /\ forall i job,
       nth_error jobs i = Some job -> url job = None ->
       nth_error (insert_delay netloc uniform jobs) i = Some job.
Proof.
  split; [apply insert_delay_loop_frame|].
  intros i job Hnth Hurl.
  destruct (insert_delay_loop_nth netloc uniform jobs [] O i job Hnth) as [_ Hno].
  apply Hno. intros u Hu. congruence.
Qed.

(** X11.  A URL job is given a delay, drawn from [random.uniform], when an
    earlier URL job of the list has the same network location; otherwise,
    and so for the first job of every network location, it is left as it
    was. *)
Theorem insert_delay_delays_repeated_netlocs {D : Type}
    (netloc : string -> string) (uniform : nat -> D) (jobs : list (DelayJob D))
    (i : nat) (job : DelayJob D) (u : string) :
  nth_error jobs i = Some job ->
  url job = Some u ->
  (netloc_seen_before netloc jobs i u ->
   exists k, (k <= i)%nat
             /\ nth_error (insert_delay netloc uniform jobs) i
                = Some (set_delay (uniform k) job))
  /\ (~ netloc_seen_before netloc jobs i u ->
      nth_error (insert_delay netloc uniform jobs) i = Some job).
Proof.
  intros Hnth Hu.
  destruct (insert_delay_loop_nth netloc uniform jobs [] O i job Hnth) as [Hyes Hno].
  split.
  - intros Hseen. destruct (Hyes u Hu) as [k [Hk Hout]]; [now right|].
    exists k. split; [lia | exact Hout].
  - intros Hnot. apply Hno. intros u' Hu'. rewrite Hu in Hu'. injection Hu' as <-.
    split; [intros [] | assumption].
Qed.

Lemma insert_delay_delays_repeated_netlocs_witness :
  exists k,
    nth_error (insert_delay sample_netloc (fun n => (10 + n)%nat) sample_delay_jobs) 3
    = Some (mkDelayJob sample_job (Some "example.com/c"%string) (Some (10 + k)%nat)).
Proof.
  destruct (insert_delay_delays_repeated_netlocs sample_netloc (fun n => (10 + n)%nat)
              sample_delay_jobs 3
              (mkDelayJob sample_job (Some "example.com/c"%string) None)
              "example.com/c" eq_refl eq_refl) as [Hyes _].
  destruct Hyes as [k [_ Hout]].
  - exists O, (mkDelayJob sample_job (Some "example.com/a"%string) None),
      "example.com/a"%string.
    repeat split. lia.
  - exists k. exact Hout.
Defined.

(** * The entry point *)

Module CliFacts.

Import Cli.

(** ** [locate_storage_file] *)

Section Locate.

Variable P : Pathlib.
Variable os : OS P.
Variable default_path : Path P.

(** What the loop finds is a file, and it is one of the names or one of the
    names under the default directory. *)
Lemma search_found (names : list (Path P)) (found : Path P) :
  search os default_path names = Some found ->
  is_file os found = true
  /\ exists file, In file names
                  /\ (found = file
                      \/ parent P file = dot P /\ found = joinpath P default_path file).
Proof.
  induction names as [|file rest IH]; cbn [search]; [discriminate|].
  destruct (is_file os file) eqn:Hfile.
  - intros [= <-]. split; [assumption|]. exists file. split; [now left | now left].
  - destruct (Path_eq_dec P (parent P file) (dot P)) as [Hdot|Hdot].
    + cbn zeta. destruct (is_file os (joinpath P default_path file)) eqn:Hnew.
      * intros [= <-]. split; [assumption|]. exists file. split; [now left | now right].
      * intros H. destruct (IH H) as [Hf [f [Hin Hcase]]].
        split; [assumption|]. exists f. split; [now right | assumption].
    + intros H. destruct (IH H) as [Hf [f [Hin Hcase]]].
      split; [assumption|]. exists f. split; [now right | assumption].
Qed.

(** When the loop finds nothing, none of the places it looks at is a
    file. *)
Lemma search_nothing (names : list (Path P)) :
  search os default_path names = None ->
  forall file, In file names ->
               is_file os file = false
               /\ (parent P file = dot P ->
                   is_file os (joinpath P default_path file) = false).
Proof.
  induction names as [|f rest IH]; cbn [search]; [intros _ file []|].
  destruct (is_file os f) eqn:Hfile; [discriminate|].
  destruct (Path_eq_dec P (parent P f) (dot P)) as [Hdot|Hdot].
  - cbn zeta. destruct (is_file os (joinpath P default_path f)) eqn:Hnew; [discriminate|].
    intros H file [<- | Hin]; [auto | now apply IH].
  - intros H file [<- | Hin]; [|now apply IH]. split; [assumption | tauto].
Qed.

(** The first name wins. *)
Lemma search_first (file : Path P) (rest : list (Path P)) :
  is_file os file = true -> search os default_path (file :: rest) = Some file.
Proof. intros H. cbn [search]. now rewrite H. Qed.

End Locate.


(** X13.  When [locate_storage_file] returns, a file name that exists as
    given is returned as it is, whatever else exists; and a path that is not
    a file is returned only when nothing was found: then it is the file name
    as given, and neither the name, nor the name with the extension, nor
    either of them under the default directory (looked at only for a name
    with no directory) is a file. *)
Theorem locate_storage_file_prefers_and_searches
    (P : Pathlib) (os : OS P) (filename default_path found : Path P)
    (ext : option string) :
  locate_storage_file os filename default_path ext = Some found ->
  (is_file os filename = true -> found = filename)
  /\ (is_file os found = false ->
      found = filename
      /\ (parent P filename = dot P ->
          is_file os (joinpath P default_path filename) = false)
      /\ forall e with_ext,
           ext = Some e -> nonempty e = true -> suffix P filename <> e ->
           with_suffix P filename e = Some with_ext ->
           is_file os with_ext = false
           /\ (parent P with_ext = dot P ->
               is_file os (joinpath P default_path with_ext) = false)).
Proof.
  unfold locate_storage_file. intros Hloc.
  destruct (search_filenames filename ext) as [names|] eqn:Hnames; [|discriminate].
  assert (Hhead : exists rest, names = filename :: rest).
  { unfold search_filenames in Hnames. destruct ext as [e|].
    - destruct (nonempty e && negb (String.eqb (suffix P filename) e)).
      + destruct (with_suffix P filename e); [|discriminate].
        injection Hnames as <-. eauto.
      + injection Hnames as <-. eauto.
    - injection Hnames as <-. eauto. }
  destruct Hhead as [rest ->]. split.
  - intros Hfile. rewrite (search_first P os default_path filename rest Hfile) in Hloc.
    congruence.
  - intros Hnot.
    destruct (search os default_path (filename :: rest)) as [f|] eqn:Hsearch.
    + injection Hloc as ->.
      destruct (search_found P os default_path _ _ Hsearch) as [Hfile _]. congruence.
    + injection Hloc as <-.
      pose proof (search_nothing P os default_path _ Hsearch) as Hnone.
      split; [reflexivity|]. split; [apply (Hnone filename); now left|].
      intros e with_ext -> Hne Hsuf Hwith. apply Hnone.
      unfold search_filenames in Hnames. rewrite Hne, Hwith in Hnames.
      apply String.eqb_neq in Hsuf. rewrite Hsuf in Hnames. cbn in Hnames.
      injection Hnames as <-. right. now left.
Qed.

Lemma locate_storage_file_prefers_and_searches_witness :
  let os := sample_os [(["jobs.yaml"]%string, "a"%string);
                       (["conf"; "jobs.yaml"]%string, "b"%string)] in
  is_file os ["hooks.py"]%string = false
  /\ is_file os ["conf"; "hooks.py"]%string = false.
Proof.
  intros os.
  destruct (locate_storage_file_prefers_and_searches sample_pathlib os
              ["hooks"]%string ["conf"]%string ["hooks"]%string (Some ".py"%string)
              eq_refl) as [_ Hnothing].
  destruct (Hnothing eq_refl) as [_ [_ Hext]].
  destruct (Hext ".py"%string ["hooks.py"]%string eq_refl eq_refl) as [Hname Hdefault];
    [discriminate | reflexivity |].
  split; [exact Hname | apply Hdefault; reflexivity].
Defined.

(** ** [migrate_from_legacy] *)

Section Migrate.

Variable P : Pathlib.

Lemma write_other (fs : Path P -> option string) (p q : Path P) (content : string) :
  p <> q -> write fs p content q = fs q.
Proof. intros Hne. unfold write. destruct (Path_eq_dec P p q); [contradiction | reflexivity]. Qed.

Lemma write_same (fs : Path P -> option string) (p : Path P) (content : string) :
  write fs p content p = Some content.
Proof. unfold write. destruct (Path_eq_dec P p p); [reflexivity | contradiction]. Qed.

Lemma is_file_true (os : OS P) (p : Path P) :
  is_file os p = true <-> exists content, files os p = Some content.
Proof.
  unfold is_file. destruct (files os p) as [c|]; split; eauto; try discriminate.
  intros [c Hc]. discriminate.
Qed.

Lemma is_file_false (os : OS P) (p : Path P) :
  is_file os p = false <-> files os p = None.
Proof. unfold is_file. destruct (files os p); split; congruence. Qed.

(** One turn of the loop: either nothing happens, or [new_file] is created
    with the content of [old_file] and nothing else changes. *)
Lemma migrate_file_cases (old_file new_file : Path P) (os : OS P) :
  (migrate_file old_file new_file os = os
   /\ (is_file os old_file = true -> is_file os new_file = true))
  \/ (exists content,
         files os old_file = Some content /\ files os new_file = None
         /\ files (migrate_file old_file new_file os) = write (files os) new_file content).
Proof.
  unfold migrate_file.
  destruct (is_file os old_file) eqn:Hold; cbn [andb].
  - destruct (is_file os new_file) eqn:Hnew; cbn [negb].
    + left. auto.
    + right. apply is_file_true in Hold. destruct Hold as [content Hc].
      apply is_file_false in Hnew. exists content.
      split; [assumption|]. split; [assumption|].
      unfold copyfile, effect. cbn [files]. rewrite Hc. reflexivity.
  - left. split; [reflexivity | discriminate].
Qed.

Lemma migrate_file_keeps (old_file new_file p : Path P) (os : OS P) (content : string) :
  files os p = Some content ->
  files (migrate_file old_file new_file os) p = Some content.
Proof.
  intros Hp. destruct (migrate_file_cases old_file new_file os)
    as [[-> _] | [c [_ [Hnew ->]]]]; [assumption|].
  rewrite write_other; [assumption|]. congruence.
Qed.

Lemma migrate_files_keeps (pairs : list (Path P * Path P)) (p : Path P) (os : OS P)
    (content : string) :
  files os p = Some content -> files (migrate_files pairs os) p = Some content.
Proof.
  revert os. induction pairs as [|[o n] rest IH]; intros os Hp; [assumption|].
  cbn [migrate_files]. apply IH. now apply migrate_file_keeps.
Qed.

Lemma migrate_file_origin (old_file new_file p : Path P) (os : OS P) (content : string) :
  files (migrate_file old_file new_file os) p = Some content ->
  files os p = Some content \/ p = new_file /\ files os old_file = Some content.
Proof.
  destruct (migrate_file_cases old_file new_file os)
    as [[-> _] | [c [Hold [Hnew ->]]]]; [now left|].
  unfold write. destruct (Path_eq_dec P new_file p) as [<- | Hne]; [|now left].
  intros [= <-]. right. auto.
Qed.

Lemma migrate_files_origin (pairs : list (Path P * Path P)) (p : Path P) (os : OS P)
    (content : string) :
  files (migrate_files pairs os) p = Some content ->
  files os p = Some content
  \/ In p (map snd pairs)
     /\ exists q, In q (map fst pairs) /\ files os q = Some content.
Proof.
  revert os. induction pairs as [|[o n] rest IH]; intros os Hp; [now left|].
  cbn [migrate_files] in Hp. cbn [map fst snd].
  destruct (IH _ Hp) as [H1 | [Hin [q [Hq H1]]]].
  - destruct (migrate_file_origin o n p os content H1) as [H0 | [-> H0]]; [now left|].
    right. split; [now left|]. exists o. split; [now left | assumption].
  - right. split; [now right|].
    destruct (migrate_file_origin o n q os content H1) as [H0 | [-> H0]].
    + exists q. split; [now right | assumption].
    + exists o. split; [now left | assumption].
Qed.

Lemma migrate_files_counterpart (pairs : list (Path P * Path P)) (os : OS P)
    (o n : Path P) :
  In (o, n) pairs -> is_file os o = true -> is_file (migrate_files pairs os) n = true.
Proof.
  revert os. induction pairs as [|[o1 n1] rest IH]; intros os Hin Hold; [destruct Hin|].
  cbn [migrate_files]. destruct Hin as [[= -> ->] | Hin].
  - assert (Hn : is_file (migrate_file o n os) n = true).
    { destruct (migrate_file_cases o n os) as [[-> Himp] | [c [_ [_ Hw]]]]; [auto|].
      apply is_file_true. exists c. rewrite Hw. apply write_same. }
    apply is_file_true in Hn. destruct Hn as [c Hc].
    apply is_file_true. exists c. now apply migrate_files_keeps.
  - apply IH; [assumption|]. apply is_file_true in Hold. destruct Hold as [c Hc].
    apply is_file_true. exists c. now apply migrate_file_keeps.
Qed.

Lemma migrate_files_copies (pairs : list (Path P * Path P)) (os : OS P)
    (o n : Path P) (content : string) :
  NoDup (map snd pairs) ->
  In (o, n) pairs -> files os o = Some content -> files os n = None ->
  files (migrate_files pairs os) n = Some content.
Proof.
  revert os. induction pairs as [|[o1 n1] rest IH]; intros os Hnd Hin Hold Hnew;
    [destruct Hin|].
  cbn [migrate_files]. cbn [map snd] in Hnd. inversion Hnd as [|? ? Hnotin Hnd']; subst.
  destruct Hin as [[= -> ->] | Hin].
  - apply migrate_files_keeps.
    destruct (migrate_file_cases o n os) as [[_ Himp] | [c [Hc [_ ->]]]].
    + assert (is_file os n = true) by (apply Himp, is_file_true; eauto).
      apply is_file_false in Hnew. congruence.
    + rewrite write_same. congruence.
  - apply IH; [assumption | assumption | now apply migrate_file_keeps |].
    assert (Hne : n1 <> n).
    { intros ->. apply Hnotin. apply in_map_iff. exists (o, n). auto. }
    destruct (migrate_file_cases o1 n1 os) as [[-> _] | [c [_ [_ ->]]]]; [assumption|].
    now rewrite write_other.
Qed.

(** Once every legacy file that exists has its counterpart, the loop does
    nothing. *)
Lemma migrate_files_settled (pairs : list (Path P * Path P)) (os : OS P) :
  (forall o n, In (o, n) pairs -> is_file os o = true -> is_file os n = true) ->
  migrate_files pairs os = os.
Proof.
  induction pairs as [|[o n] rest IH]; intros Hall; [reflexivity|].
  cbn [migrate_files].
  assert (Hstep : migrate_file o n os = os).
  { unfold migrate_file. destruct (is_file os o) eqn:Ho; [|reflexivity].
    rewrite (Hall o n) by (auto; now left). reflexivity. }
  rewrite Hstep. apply IH. intros o' n' Hin. apply Hall. now right.
Qed.

End Migrate.

(** X14.  [migrate_from_legacy] deletes nothing and overwrites nothing:
    every file keeps its content.  A file found afterwards either was there
    with that content, or is one of the four new files and holds the content
    that one of the legacy files had. *)
Theorem migrate_from_legacy_keeps_files_and_only_copies
    (P : Pathlib) (home lg_cache_path : Path P) (legacy_package : string)
    (config_file jobs_file hooks_file cache_file : Path P) (os : OS P)
    (p : Path P) (content : string) :
  let after := migrate_from_legacy home lg_cache_path legacy_package
                 config_file jobs_file hooks_file cache_file os in
  (files os p = Some content -> files after p = Some content)
  /\ (files after p = Some content ->
      files os p = Some content
      \/ In p [config_file; jobs_file; hooks_file; cache_file]
         /\ exists q, In q (legacy_files home lg_cache_path legacy_package)
                      /\ files os q = Some content).
Proof.
  cbn zeta. unfold migrate_from_legacy. split.
  - apply migrate_files_keeps.
  - intros Hafter. apply migrate_files_origin in Hafter. exact Hafter.
Qed.

(** X15.  Every legacy file that exists has its counterpart afterwards; and
    when the four new paths differ from each other and the counterpart did
    not exist, it holds the content of the legacy file. *)
Theorem migrate_from_legacy_gives_counterparts
    (P : Pathlib) (home lg_cache_path : Path P) (legacy_package : string)
    (config_file jobs_file hooks_file cache_file : Path P) (os : OS P)
    (old_file new_file : Path P) (content : string) :
  In (old_file, new_file)
     (combine (legacy_files home lg_cache_path legacy_package)
              [config_file; jobs_file; hooks_file; cache_file]) ->
  files os old_file = Some content ->
  let after := migrate_from_legacy home lg_cache_path legacy_package
                 config_file jobs_file hooks_file cache_file os in
  is_file after new_file = true
  /\ (NoDup [config_file; jobs_file; hooks_file; cache_file] ->
      files os new_file = None -> files after new_file = Some content).
Proof.
  intros Hin Hold. cbn zeta. unfold migrate_from_legacy. split.
  - apply (migrate_files_counterpart P _ os old_file new_file Hin).
    apply is_file_true. eauto.
  - intros Hnd Hnew. apply (migrate_files_copies P _ os old_file new_file content);
      [exact Hnd | exact Hin | exact Hold | exact Hnew].
Qed.

Lemma migrate_from_legacy_gives_counterparts_witness :
  let os := sample_os [(["home"; ".urlwatch"; "urls.yaml"]%string, "legacy jobs"%string);
                       (["conf"; "config.yaml"]%string, "new config"%string)] in
  files (@migrate_from_legacy sample_pathlib ["home"]%string ["cache"; "urlwatch"]%string
           "urlwatch" ["conf"; "config.yaml"]%string ["conf"; "jobs.yaml"]%string
           ["conf"; "hooks.py"]%string ["cache"; "webchanges"; "cache.db"]%string os)
        ["conf"; "jobs.yaml"]%string
  = Some "legacy jobs"%string.
Proof.
  intros os.
  apply (migrate_from_legacy_gives_counterparts sample_pathlib
           ["home"]%string ["cache"; "urlwatch"]%string "urlwatch"
           ["conf"; "config.yaml"]%string ["conf"; "jobs.yaml"]%string
           ["conf"; "hooks.py"]%string ["cache"; "webchanges"; "cache.db"]%string os
           ["home"; ".urlwatch"; "urls.yaml"]%string ["conf"; "jobs.yaml"]%string
           "legacy jobs").
  - right. left. reflexivity.
  - reflexivity.
  - repeat constructor; cbn; intuition discriminate.
  - reflexivity.
Defined.

(** X16.  When no new path is a legacy path, migrating a second time does
    nothing at all: no directory is made, no file copied, no warning
    logged. *)
Theorem migrate_from_legacy_twice
    (P : Pathlib) (home lg_cache_path : Path P) (legacy_package : string)
    (config_file jobs_file hooks_file cache_file : Path P) (os : OS P) :
  (forall old_file new_file,
      In old_file (legacy_files home lg_cache_path legacy_package) ->
      In new_file [config_file; jobs_file; hooks_file; cache_file] ->
      old_file <> new_file) ->
  let migrate := migrate_from_legacy home lg_cache_path legacy_package
                   config_file jobs_file hooks_file cache_file in
  migrate (migrate os) = migrate os.
Proof.
  intros Hapart. cbn zeta. unfold migrate_from_legacy.
  set (pairs := combine _ _).
  apply migrate_files_settled. intros o n Hin Hfile.
  apply (migrate_files_counterpart P pairs os o n Hin).
  apply is_file_true in Hfile. destruct Hfile as [content Hc].
  apply is_file_true. exists content.
  destruct (migrate_files_origin P pairs o os content Hc) as [H0 | [Hnew _]];
    [assumption|].
  exfalso. apply (Hapart o o).
  - apply (in_combine_l _ _ _ _ Hin).
  - unfold pairs in Hnew. exact Hnew.
  - reflexivity.
Qed.

Lemma migrate_from_legacy_twice_witness :
  let os := sample_os [(["home"; ".urlwatch"; "urls.yaml"]%string, "legacy jobs"%string)] in
  let migrate :=
    @migrate_from_legacy sample_pathlib ["home"]%string ["cache"; "urlwatch"]%string
      "urlwatch" ["conf"; "config.yaml"]%string ["conf"; "jobs.yaml"]%string
      ["conf"; "hooks.py"]%string ["cache"; "webchanges"; "cache.db"]%string in
  log (migrate (migrate os)) = log (migrate os).
Proof.
  intros os migrate. unfold migrate.
  rewrite (migrate_from_legacy_twice sample_pathlib ["home"]%string
             ["cache"; "urlwatch"]%string "urlwatch"
             ["conf"; "config.yaml"]%string ["conf"; "jobs.yaml"]%string
             ["conf"; "hooks.py"]%string ["cache"; "webchanges"; "cache.db"]%string os).
  - reflexivity.
  - intros o n Ho Hn. cbn in Ho, Hn.
    repeat match goal with H : _ \/ _ |- _ => destruct H | H : False |- _ => destruct H end;
      subst; discriminate.
Defined.

(** ** [first_run] *)

(** X17.  [first_run] never prints the hint to edit the jobs file: by the
    time it tests [command_config.edit] it has set it.  It prints the hint
    to edit the configuration exactly when it created the configuration file
    and [edit_config] is unset.  It changes nothing in [command_config] but
    [edit], which is set when the jobs file is created. *)
Theorem first_run_hints
    (P : Pathlib)
    (write_default_config : Path P -> (Path P -> option string) -> Path P -> option string)
    (project_name docs_url : string) (command_config : CommandConfig P) (os : OS P) :
  let result := first_run write_default_config project_name docs_url command_config os in
  exists added,
    log (snd result) = log os ++ added
    /\ ~ In PrintEditHint added
    /\ (In PrintEditConfigHint added
        <-> is_file os (config command_config) = false
            /\ edit_config command_config = false)
    /\ config (fst result) = config command_config
    /\ jobs (fst result) = jobs command_config
    /\ edit_config (fst result) = edit_config command_config
    /\ (edit (fst result) = true
        <-> edit command_config = true
            \/ In (PrintCreatedJobs (jobs command_config)) added).
Proof.
  cbn zeta. unfold first_run, first_run_jobs, first_run_config, effect_if, effect.
  destruct (is_file os (config command_config)) eqn:Hconfig; cbn [negb];
    destruct (edit_config command_config) eqn:Hedit; cbn [negb];
    match goal with
    | |- context [is_file ?s (jobs command_config)] =>
        destruct (is_file s (jobs command_config)) eqn:Hjobs
    end; cbn [negb fst snd log files config jobs edit_config edit];
    rewrite <- ?app_assoc; cbn [app];
    eexists; (split; [try reflexivity; symmetry; apply app_nil_r|]);
    cbn [In];
    (split; [intuition discriminate|]);
    (split; [intuition discriminate|]);
    repeat (split; [reflexivity|]); intuition discriminate.
Qed.

Section FirstRun.

Variable P : Pathlib.
Variable write_default_config :
  Path P -> (Path P -> option string) -> Path P -> option string.
Hypothesis creates : forall p fs, write_default_config p fs p <> None.
Hypothesis frame : forall p fs q, q <> p -> write_default_config p fs q = fs q.

(** The first step leaves the configuration file in place, and every file
    that was there as it was. *)
Lemma first_run_config_files (command_config : CommandConfig P) (os : OS P) :
  let os1 := first_run_config write_default_config command_config os in
  is_file os1 (config command_config) = true
  /\ (forall q content, files os q = Some content -> files os1 q = Some content)
  /\ (forall q, q <> config command_config -> files os1 q = files os q)
  /\ (is_file os (config command_config) = true -> os1 = os).
Proof.
  cbn zeta. unfold first_run_config, effect_if, effect.
  destruct (is_file os (config command_config)) eqn:Hconfig; cbn [negb].
  - repeat split; auto.
  - apply is_file_false in Hconfig.
    assert (Hfiles : forall l, files (mkOS (write_default_config (config command_config)
                                              (files os)) l)
                               = write_default_config (config command_config) (files os))
      by reflexivity.
    destruct (edit_config command_config); cbn [negb files log].
    all: split; [unfold is_file; cbn [files];
                 destruct (write_default_config (config command_config) (files os)
                             (config command_config)) eqn:E;
                 [reflexivity | exfalso; exact (creates _ _ E)]|].
    all: split; [intros q content Hq; rewrite frame; [assumption | congruence]|].
    all: split; [intros q Hq; now apply frame | discriminate].
Qed.

(** The second step leaves the jobs file in place, and every file that was
    there as it was. *)
Lemma first_run_jobs_files (project_name docs_url : string)
    (command_config : CommandConfig P) (os : OS P) :
  let result := first_run_jobs project_name docs_url command_config os in
  is_file (snd result) (jobs command_config) = true
  /\ (forall q content, files os q = Some content -> files (snd result) q = Some content)
  /\ (is_file os (jobs command_config) = false ->
      files (snd result) (jobs command_config)
      = Some (jobs_header project_name docs_url))
  /\ (is_file os (jobs command_config) = true -> result = (command_config, os))
  /\ config (fst result) = config command_config
  /\ jobs (fst result) = jobs command_config.
Proof.
  cbn zeta. unfold first_run_jobs, effect_if, effect.
  destruct (is_file os (jobs command_config)) eqn:Hjobs;
    cbn [negb fst snd files log config jobs edit].
  - repeat split; auto. discriminate.
  - apply is_file_false in Hjobs.
    split; [unfold is_file; cbn [files]; now rewrite write_same|].
    split; [intros q content Hq; rewrite write_other; [assumption | congruence]|].
    split; [intros _; apply write_same|].
    split; [discriminate|]. split; reflexivity.
Qed.

End FirstRun.

(** X18.  Provided that [write_default_config] creates the file it is given
    and touches no other, after [first_run] the configuration file and the
    jobs file both exist; every file that existed keeps its content; a jobs
    file that was missing, at another path than the configuration file,
    holds the one-line header; and a second [first_run] does nothing. *)
Theorem first_run_creates_what_is_missing
    (P : Pathlib)
    (write_default_config : Path P -> (Path P -> option string) -> Path P -> option string)
    (project_name docs_url : string) (command_config : CommandConfig P) (os : OS P) :
  (forall p fs, write_default_config p fs p <> None) ->
  (forall p fs q, q <> p -> write_default_config p fs q = fs q) ->
  let run := first_run write_default_config project_name docs_url in
  let result := run command_config os in
  is_file (snd result) (config command_config) = true
  /\ is_file (snd result) (jobs command_config) = true
  /\ (forall q content, files os q = Some content -> files (snd result) q = Some content)
  /\ (is_file os (jobs command_config) = false ->
      jobs command_config <> config command_config ->
      files (snd result) (jobs command_config)
      = Some (jobs_header project_name docs_url))
  /\ run (fst result) (snd result) = result.
Proof.
  intros Hcreates Hframe. cbn zeta. unfold first_run.
  set (os1 := first_run_config write_default_config command_config os).
  destruct (first_run_config_files P write_default_config Hcreates Hframe command_config os)
    as [Hc1 [Hkeep1 [Hframe1 _]]]. fold os1 in Hc1, Hkeep1, Hframe1.
  destruct (first_run_jobs_files P project_name docs_url command_config os1)
    as [Hj2 [Hkeep2 [Hnew2 [Hsame2 [Hcfg Hjob]]]]].
  set (result := first_run_jobs project_name docs_url command_config os1) in *.
  assert (Hc2 : is_file (snd result) (config command_config) = true).
  { apply is_file_true in Hc1. destruct Hc1 as [c Hc]. apply is_file_true. eauto. }
  split; [exact Hc2|]. split; [exact Hj2|].
  split; [intros q content Hq; auto|].
  split.
  - intros Hmissing Hne. apply Hnew2. apply is_file_false.
    rewrite Hframe1 by assumption. now apply is_file_false.
  - destruct (first_run_config_files P write_default_config Hcreates Hframe
                (fst result) (snd result)) as [_ [_ [_ Hid1]]].
    rewrite Hcfg in Hid1. rewrite (Hid1 Hc2).
    destruct (first_run_jobs_files P project_name docs_url (fst result) (snd result))
      as [_ [_ [_ [Hid2 _]]]].
    rewrite Hjob in Hid2. rewrite (Hid2 Hj2). symmetry. apply surjective_pairing.
Qed.

Lemma first_run_creates_what_is_missing_witness :
  let os := sample_os [(["conf"; "config.yaml"]%string, "mine"%string)] in
  let result :=
    @first_run sample_pathlib (fun p fs => write fs p "default"%string)
      "webchanges" "https://webchanges.readthedocs.io"
      (@mkCommandConfig sample_pathlib ["conf"; "config.yaml"]%string ["conf"; "jobs.yaml"]%string
         false false) os in
  files (snd result) ["conf"; "config.yaml"]%string = Some "mine"%string
  /\ is_file (snd result) ["conf"; "jobs.yaml"]%string = true.
Proof.
  intros os result.
  destruct (first_run_creates_what_is_missing sample_pathlib
              (fun p fs => write fs p "default"%string)
              "webchanges" "https://webchanges.readthedocs.io"
              (@mkCommandConfig sample_pathlib ["conf"; "config.yaml"]%string ["conf"; "jobs.yaml"]%string
                 false false) os) as [_ [Hjobs [Hkeep _]]].
  - intros p fs. rewrite write_same. discriminate.
  - intros p fs q Hne. apply write_other. congruence.
  - split; [apply Hkeep; reflexivity | exact Hjobs].
Defined.

(** ** [handle_unitialized_actions] and the choice of the database *)

(** X19.  [handle_unitialized_actions] returns, having printed and run
    nothing, only when neither [check_new] nor [install_chrome] is set.
    With [check_new] it exits without running Playwright, with code 1 when
    the look-up of the latest release answered [False] and with code 0 in
    every other case.  With [install_chrome] alone it raises [ImportError]
    when Playwright is missing, and otherwise exits with the return code of
    the Playwright command, printing its standard error exactly when that
    code is not 0. *)
Theorem handle_unitialized_actions_exit_codes
    (check_new install_chrome : bool) (new_release : StrOrBool)
    (driver_executable : option string) (run : list string -> CompletedProcess) :
  let result :=
    handle_unitialized_actions check_new install_chrome new_release
      driver_executable run in
  (snd result = inr tt <-> check_new = false /\ install_chrome = false)
  /\ (snd result = inr tt -> fst result = [])
  /\ (check_new = true ->
      (forall cmd, ~ In (RunPlaywright cmd) (fst result))
      /\ exists code,
           snd result = inl (SystemExit code)
           /\ (code = 0 \/ code = 1)
           /\ (code = 1 <-> new_release = PyBool false))
  /\ (check_new = false -> install_chrome = true ->
      match driver_executable with
      | None => fst result = [] /\ exists msg, snd result = inl (ImportError msg)
      | Some exe =>
          let completed := run [exe; "install"; "chrome"]%string in
          snd result = inl (SystemExit (returncode completed))
          /\ (In (PrintStderr (stderr completed)) (fst result)
              <-> returncode completed <> 0)
      end).
Proof.
  cbn zeta. unfold handle_unitialized_actions.
  destruct check_new.
  - unfold print_new_version.
    destruct new_release as [[|ch s]|[|]]; cbn.
    all: split; [split; [discriminate | intros [? _]; discriminate]|].
    all: split; [discriminate|].
    all: split; [|intros; discriminate].
    all: intros _; split;
      [intros cmd Hin; cbn in Hin; intuition discriminate|].
    all: eexists; split; [reflexivity|]; split; [auto|]; split; intros H;
      try discriminate; try reflexivity; try lia.
  - destruct install_chrome.
    + unfold playwright_install_chrome.
      destruct driver_executable as [exe|]; cbn zeta.
      * destruct (Z.eqb_spec (returncode (run [exe; "install"; "chrome"]%string)) 0)
          as [Hzero | Hnonzero]; cbn [negb fst snd].
        all: split; [split; [discriminate | intros [_ ?]; discriminate]|].
        all: split; [discriminate|].
        all: split; [discriminate|].
        all: intros _ _; split.
        -- now rewrite Hzero.
        -- cbn. split; [intros [H | []]; discriminate | intros H; contradiction].
        -- reflexivity.
        -- cbn. split; [intros _; assumption | intros _; right; left; reflexivity].
      * cbn [fst snd].
        split; [split; [discriminate | intros [_ ?]; discriminate]|].
        split; [discriminate|]. split; [discriminate|].
        intros _ _. split; [reflexivity | eauto].
    + cbn [fst snd]. split; [tauto|]. split; [reflexivity|].
      split; discriminate.
Qed.

(** X20.  In [main], the engine [sqlite3] always opens the SQLite database;
    with any other engine name, known or not, a cache that is a redis URI
    opens the redis database.  An exception is raised only without such a
    URI: [RuntimeError] for the engine [redis], [NotImplementedError] for an
    engine that is none of [textfiles] and [minidb]. *)
Theorem main_database_choice
    (database_engine cache : string) (max_snapshots : Z) :
  (database_engine = "sqlite3"%string ->
   main_cache_storage database_engine cache max_snapshots
   = inr (CacheSQLite3Storage cache max_snapshots))
  /\ (database_engine <> "sqlite3"%string ->
      (exists rest, cache = ("redis://" ++ rest)%string
                    \/ cache = ("rediss://" ++ rest)%string) ->
      main_cache_storage database_engine cache max_snapshots
      = inr (CacheRedisStorage cache))
  /\ (forall e,
         main_cache_storage database_engine cache max_snapshots = inl e ->
         redis_uri cache = false
         /\ ((database_engine = "redis"%string /\ exists msg, e = RuntimeError msg)
             \/ (database_engine <> "sqlite3"%string
                 /\ database_engine <> "redis"%string
                 /\ database_engine <> "textfiles"%string
                 /\ database_engine <> "minidb"%string
                 /\ exists msg, e = NotImplementedError msg))).
Proof.
  unfold main_cache_storage. split; [|split].
  - intros ->. reflexivity.
  - intros Hne [rest Huri]. apply String.eqb_neq in Hne. rewrite Hne.
    assert (Hredis : redis_uri cache = true).
    { unfold redis_uri. destruct Huri as [-> | ->]; cbn;
        rewrite ?String.prefix_correct; cbn;
        destruct rest; reflexivity. }
    now rewrite Hredis.
  - intros e.
    destruct (String.eqb_spec database_engine "sqlite3"); [discriminate|].
    destruct (redis_uri cache); [discriminate|].
    destruct (String.eqb_spec database_engine "redis").
    + intros [= <-]. split; [reflexivity|]. left. eauto.
    + destruct (String.eqb_spec database_engine "textfiles"); [discriminate|].
      destruct (String.eqb_spec database_engine "minidb"); [discriminate|].
      intros [= <-]. split; [reflexivity|]. right. repeat split; auto. eauto.
Qed.

End CliFacts.
